(** * StatisticsCalculator: a shallow embedding of MultiParadigmPython.py

    The Python class [StatisticsCalculator] keeps a reference to a list of
    integers, a lazily computed sorted copy of it and a dictionary of
    memoised statistics.  Python lists are mutable objects that are passed
    and returned by reference, so the embedding keeps a store of list
    objects ([heap]) next to the calculator object itself; every method is
    a computation in a state-and-exception monad over that pair.

    Numbers: Python integers are unbounded ([Z]).  Python floats are
    idealised as exact numbers: the quotients computed by [/] are exact
    rationals in lowest terms ([Q] after [Qred]) and [math.sqrt] is the
    real square root ([R]); rounding and overflow are outside this model. *)

From Stdlib Require Import ZArith QArith Qreduction Qpower Reals Qreals Lra Lia List String.
From Stdlib Require Import Sorting.Sorted Sorting.Permutation.
From Stdlib Require Import DecimalString.
From stdpp Require Import base list.
Import ListNotations.

Local Open Scope Z_scope.

(** * The embedding *)

(** ** Python objects and exceptions *)

(** A reference to a Python list object: its index in the store. *)
Abbreviation loc := nat (only parsing).

(** The store of Python list objects ([List[int]] values). *)
Abbreviation heap := (list (list Z)) (only parsing).

(** The exception classes that the operations used by the class can raise.
    The class itself only ever writes [raise ValueError(...)]; the other
    three come from [/], from indexing and from dictionary lookup. *)
Inductive exn_class := ValueError | ZeroDivisionError | IndexError | KeyError.

Definition exn_class_eqb (a b : exn_class) : bool :=
  match a, b with
  | ValueError, ValueError
  | ZeroDivisionError, ZeroDivisionError
  | IndexError, IndexError
  | KeyError, KeyError => true
  | _, _ => false
  end.

(** An exception object: its class and its message. *)
Record exn := PyExn { exn_type : exn_class; exn_msg : string }.

Inductive result (A : Type) :=
| Ok (a : A)
| Raise (e : exn).
Arguments Ok {A} a.
Arguments Raise {A} e.

(** ** Pure built-ins used by the class *)

(** [len(l)] *)
Definition len {A} (l : list A) : Z := Z.of_nat (length l).

(** [sum(l)] over integers: starts from 0 and adds from the left. *)
Definition py_sum (l : list Z) : Z := fold_left Z.add l 0.

(** [sum(g)] over floats. *)
Definition py_fsum (l : list Q) : Q := fold_left Qplus l (0 # 1)%Q.

(** [a / b] on two integers: true division. *)
Definition truediv (a b : Z) : result Q :=
  if b =? 0 then Raise (PyExn ZeroDivisionError "division by zero")
  else Ok (Qred (inject_Z a / inject_Z b)).

(** [a / b] for a float [a] and an integer [b]. *)
Definition fdiv (a : Q) (b : Z) : result Q :=
  if b =? 0 then Raise (PyExn ZeroDivisionError "float division by zero")
  else Ok (Qred (a / inject_Z b)).

(** [float(a)] *)
Definition float (a : Z) : Q := inject_Z a.

(** [math.sqrt(v)]: a [ValueError] on a negative argument. *)
Definition math_sqrt (v : Q) : result R :=
  if Qlt_le_dec v 0 then Raise (PyExn ValueError "math domain error")
  else Ok (sqrt (Q2R v)).

(** [l[i]] with Python's negative indices. *)
Definition index (l : list Z) (i : Z) : result Z :=
  let j := if i <? 0 then i + len l else i in
  if (j <? 0) || (len l <=? j) then
    Raise (PyExn IndexError "list index out of range")
  else
    match nth_error l (Z.to_nat j) with
    | Some x => Ok x
    | None => Raise (PyExn IndexError "list index out of range")
    end.

(** [sorted(l)]: the ascending rearrangement of [l]. *)
Fixpoint insert_sorted (x : Z) (l : list Z) : list Z :=
  match l with
  | [] => [x]
  | y :: l' => if x <=? y then x :: l else y :: insert_sorted x l'
  end.

Definition sorted (l : list Z) : list Z := fold_right insert_sorted [] l.

(** [Counter(l)]: the distinct values of [l] in order of first occurrence,
    each with its number of occurrences. *)
Fixpoint counter_incr (x : Z) (c : list (Z * nat)) : list (Z * nat) :=
  match c with
  | [] => [(x, 1%nat)]
  | (y, k) :: c' => if x =? y then (y, S k) :: c' else (y, k) :: counter_incr x c'
  end.

Definition Counter (l : list Z) : list (Z * nat) :=
  fold_left (fun c x => counter_incr x c) l [].

(** [max(xs)]: a [ValueError] on an empty sequence. *)
Definition py_max (xs : list nat) : result nat :=
  match xs with
  | [] => Raise (PyExn ValueError "max() arg is an empty sequence")
  | x :: xs' => Ok (fold_left Nat.max xs' x)
  end.

(** ** The calculator object *)

(** [self._cache]: a dictionary that only ever holds the keys ['mean'],
    ['median'] and ['mode']; an absent key is [None].  The value under
    ['mode'] is a list object, hence a reference. *)
Record Cache := mkCache {
  c_mean : option Q;
  c_median : option Q;
  c_mode : option loc
}.

Definition empty_cache : Cache := mkCache None None None.

(** The fields of a calculator.  [_data] is a reference: the constructor
    and the setter keep the list they are given, and the [data] property
    hands it out.  [_sorted_data] is the list built by [sorted], or
    [None]; no public method returns or mutates that list, so it is
    kept as a value. *)
Record StatisticsCalculator := mkCalc {
  _data : loc;
  _sorted_data : option (list Z);
  _cache : Cache
}.

(** The state a method runs in: the store of lists and [self]. *)
Record state := mkState {
  hp : heap;
  self : StatisticsCalculator
}.

(** ** The state-and-exception monad *)

Definition M (A : Type) : Type := state -> result A * state.

Definition ret {A} (a : A) : M A := fun s => (Ok a, s).

Definition raise {A} (e : exn) : M A := fun s => (Raise e, s).

Definition bind {A B} (m : M A) (k : A -> M B) : M B :=
  fun s =>
    match m s with
    | (Ok a, s') => k a s'
    | (Raise e, s') => (Raise e, s')
    end.

Definition lift {A} (r : result A) : M A := fun s => (r, s).

(** [try: m except cls: h] *)
Definition try_except {A} (m : M A) (cls : exn_class) (h : M A) : M A :=
  fun s =>
    match m s with
    | (Ok a, s') => (Ok a, s')
    | (Raise e, s') =>
        if exn_class_eqb (exn_type e) cls then h s' else (Raise e, s')
    end.

Notation "'let!' x ':=' m 'in' k" := (bind m (fun x => k))
  (at level 10, x name, m at level 100, k at level 200, only parsing).
Notation "m '>>' k" := (bind m (fun _ => k))
  (at level 65, right associativity, only parsing).

(** Primitive state accesses. *)

Definition get_self : M StatisticsCalculator := fun s => (Ok (self s), s).

Definition put_self (c : StatisticsCalculator) : M unit :=
  fun s => (Ok tt, mkState (hp s) c).

(** Reading the list object behind a reference. *)
Definition load (r : loc) : M (list Z) :=
  fun s => (Ok (default [] (hp s !! r)), s).

(** Overwriting the contents of a list object in place. *)
Definition store (r : loc) (l : list Z) : M unit :=
  fun s => (Ok tt, mkState (<[r := l]> (hp s)) (self s)).

(** Creating a new list object. *)
Definition alloc (l : list Z) : M loc :=
  fun s => (Ok (length (hp s)), mkState (hp s ++ [l]) (self s)).

(** Field updates of [self]. *)
Definition set__data (r : loc) : M unit :=
  let! c := get_self in put_self (mkCalc r (_sorted_data c) (_cache c)).

Definition set__sorted_data (o : option (list Z)) : M unit :=
  let! c := get_self in put_self (mkCalc (_data c) o (_cache c)).

Definition set__cache (k : Cache) : M unit :=
  let! c := get_self in put_self (mkCalc (_data c) (_sorted_data c) k).

(** [self._cache.clear()] *)
Definition cache_clear : M unit := set__cache empty_cache.

(** [self._data] read as a value. *)
Definition read_data : M (list Z) :=
  let! c := get_self in load (_data c).

(** ** The methods of the class, in source order *)

(** [__init__(self, data=None)]: the list that is passed is kept as it
    is (no copy); without one a new empty list is created. *)
Definition init (data : option loc) (h : heap) : state :=
  match data with
  | Some r => mkState h (mkCalc r None empty_cache)
  | None => mkState (h ++ [[]]) (mkCalc (length h) None empty_cache)
  end.

(** The [data] property: returns the list object itself. *)
Definition data : M loc :=
  let! c := get_self in ret (_data c).

(** The [data] setter. *)
Definition set_data (new_data : loc) : M unit :=
  set__data new_data >>
  set__sorted_data None >>
  cache_clear.

Definition add_value (value : Z) : M unit :=
  let! c := get_self in
  let! d := load (_data c) in
  store (_data c) (d ++ [value]) >>
  set__sorted_data None >>
  cache_clear.

Definition add_values (values : loc) : M unit :=
  let! c := get_self in
  let! d := load (_data c) in
  let! vs := load values in
  store (_data c) (d ++ vs) >>
  set__sorted_data None >>
  cache_clear.

Definition clear_data : M unit :=
  let! r := alloc [] in
  set__data r >>
  set__sorted_data None >>
  cache_clear.

Definition _get_sorted_data : M (list Z) :=
  let! c := get_self in
  match _sorted_data c with
  | None =>
      let! d := read_data in
      set__sorted_data (Some (sorted d)) >>
      ret (sorted d)
  | Some sd => ret sd
  end.

(** [self._cache[key]] for the three keys. *)
Definition cache_get {A} (key : string) (field : Cache -> option A) : M A :=
  let! c := get_self in
  match field (_cache c) with
  | Some v => ret v
  | None => raise (PyExn KeyError key)
  end.

Definition mean : M Q :=
  let! c := get_self in
  (match c_mean (_cache c) with
   | None =>
       let! d := read_data in
       match d with
       | [] => raise (PyExn ValueError "Cannot calculate mean: data is empty")
       | _ :: _ =>
           let! v := lift (truediv (py_sum d) (len d)) in
           let! c := get_self in
           set__cache (mkCache (Some v) (c_median (_cache c)) (c_mode (_cache c)))
       end
   | Some _ => ret tt
   end) >>
  cache_get "mean" c_mean.

Definition median : M Q :=
  let! c := get_self in
  (match c_median (_cache c) with
   | None =>
       let! d := read_data in
       match d with
       | [] => raise (PyExn ValueError "Cannot calculate median: data is empty")
       | _ :: _ =>
           let! sorted_data := _get_sorted_data in
           let n := len sorted_data in
           let mid := n / 2 in
           let! v :=
             (if n mod 2 =? 0 then
                let! a := lift (index sorted_data (mid - 1)) in
                let! b := lift (index sorted_data mid) in
                lift (truediv (a + b) 2)
              else
                let! a := lift (index sorted_data mid) in
                ret (float a)) in
           let! c := get_self in
           set__cache (mkCache (c_mean (_cache c)) (Some v) (c_mode (_cache c)))
       end
   | Some _ => ret tt
   end) >>
  cache_get "median" c_median.

(** The list comprehension and the in-place sort of [mode]. *)
Definition modes_of (freq_counter : list (Z * nat)) (max_freq : nat) : list Z :=
  sorted (map fst (List.filter (fun vf => Nat.eqb (snd vf) max_freq) freq_counter)).

Definition mode : M loc :=
  let! c := get_self in
  (match c_mode (_cache c) with
   | None =>
       let! d := read_data in
       match d with
       | [] => raise (PyExn ValueError "Cannot calculate mode: data is empty")
       | _ :: _ =>
           let freq_counter := Counter d in
           let! max_freq := lift (py_max (map snd freq_counter)) in
           let! modes := alloc (modes_of freq_counter max_freq) in
           let! c := get_self in
           set__cache (mkCache (c_mean (_cache c)) (c_median (_cache c)) (Some modes))
       end
   | Some _ => ret tt
   end) >>
  cache_get "mode" c_mode.

(** The branches of [standard_deviation], as they are written. *)
Definition standard_deviation (population : bool) : M R :=
  let! d := read_data in
  match d with
  | [] => raise (PyExn ValueError "Cannot calculate standard deviation: data is empty")
  | _ :: _ =>
      let n := len d in
      if population && (n =? 0) then ret 0%R
      else if negb population && (n <? 2) then
        raise (PyExn ValueError
          "Cannot calculate sample standard deviation with less than 2 data points")
      else
        let! mean_val := mean in
        let! d := read_data in
        let! variance :=
          lift (fdiv (py_fsum (map (fun x => Qpower (float x - mean_val) 2) d))
                     (if population then n else n - 1)) in
        lift (math_sqrt variance)
  end.

Definition range : M Z :=
  let! d := read_data in
  match d with
  | [] => raise (PyExn ValueError "Cannot calculate range: data is empty")
  | _ :: _ =>
      let! sorted_data := _get_sorted_data in
      let! hi := lift (index sorted_data (-1)) in
      let! lo := lift (index sorted_data 0) in
      ret (hi - lo)
  end.

(** The dictionary built by [summary]; [None] is Python's [None]. *)
Record Summary := mkSummary {
  sm_mean : option Q;
  sm_median : option Q;
  sm_mode : option loc;
  sm_std_dev_sample : option R;
  sm_std_dev_population : option R;
  sm_range : option Z;
  sm_count : Z;
  sm_min : option Z;
  sm_max : option Z
}.

(** [try: d[k] = m except ValueError: d[k] = None] *)
Definition or_none {A} (m : M A) : M (option A) :=
  try_except (let! v := m in ret (Some v)) ValueError (ret None).

Definition summary : M Summary :=
  let! s_mean := or_none mean in
  let! s_median := or_none median in
  let! s_mode := or_none mode in
  let! s_sample := or_none (standard_deviation false) in
  let! s_population := or_none (standard_deviation true) in
  let! s_range := or_none range in
  let! d := read_data in
  let count := len d in
  let! d := read_data in
  match d with
  | _ :: _ =>
      let! sorted_data := _get_sorted_data in
      let! lo := lift (index sorted_data 0) in
      let! hi := lift (index sorted_data (-1)) in
      ret (mkSummary s_mean s_median s_mode s_sample s_population s_range
                     count (Some lo) (Some hi))
  | [] =>
      ret (mkSummary s_mean s_median s_mode s_sample s_population s_range
                     count None None)
  end.

(** ** Observations *)

(** The integers currently held by the calculator: the content of the
    list that [_data] refers to (a reference outside the store, which
    Python cannot produce, reads as the empty list). *)
Definition data_of (s : state) : list Z := default [] (hp s !! _data (self s)).

(** The state a method leaves behind and the value it returns. *)
Definition run {A} (m : M A) (s : state) : state := snd (m s).
Definition outcome {A} (m : M A) (s : state) : result A := fst (m s).

(** ** States of the calculator *)

(** The reference held in [_data] denotes a list object of the store. *)
Definition valid (s : state) : Prop := (_data (self s) < length (hp s))%nat.

(** The same calculator with nothing memoised. *)
Definition invalidated (s : state) : state :=
  mkState (hp s) (mkCalc (_data (self s)) None empty_cache).

(** A statistic computed from the current data, disregarding the caches:
    the method is run on the invalidated state.  For [mode] the result is
    the content of the list object that is returned. *)
Definition fresh {A} (m : M A) (s : state) : result A := outcome m (invalidated s).

Definition fresh_mode (s : state) : result (list Z) :=
  match mode (invalidated s) with
  | (Ok r, s') => Ok (default [] (hp s' !! r))
  | (Raise e, _) => Raise e
  end.

(** The cache-consistency invariant. *)
Definition consistent (s : state) : Prop :=
  valid s /\
  (forall S, _sorted_data (self s) = Some S -> S = sorted (data_of s)) /\
  (forall q, c_mean (_cache (self s)) = Some q -> fresh mean s = Ok q) /\
  (forall q, c_median (_cache (self s)) = Some q -> fresh median s = Ok q) /\
  (forall r, c_mode (_cache (self s)) = Some r ->
     exists ms, hp s !! r = Some ms /\ fresh_mode s = Ok ms).

(** Nothing is memoised. *)
Definition nothing_cached (s : state) : Prop :=
  _sorted_data (self s) = None /\ _cache (self s) = empty_cache.

Definition with_sorted (s : state) (o : option (list Z)) : state :=
  mkState (hp s) (mkCalc (_data (self s)) o (_cache (self s))).

Definition with_cache (s : state) (k : Cache) : state :=
  mkState (hp s) (mkCalc (_data (self s)) (_sorted_data (self s)) k).

(** The values that the three memoised methods compute. *)
Definition mean_of (d : list Z) : Q := Qred (inject_Z (py_sum d) / inject_Z (len d)).

Definition median_of_sorted (sd : list Z) : Q :=
  let mid := len sd / 2 in
  if len sd mod 2 =? 0
  then Qred (inject_Z (nth (Z.to_nat (mid - 1)) sd 0 + nth (Z.to_nat mid) sd 0)
             / inject_Z 2)
  else float (nth (Z.to_nat mid) sd 0).

Definition median_of (d : list Z) : Q := median_of_sorted (sorted d).

Definition range_of_sorted (sd : list Z) : Z :=
  nth (length sd - 1) sd 0 - nth 0 sd 0.

(** The list that [_get_sorted_data] returns: the memoised one when there
    is one. *)
Definition sorted_view (s : state) : list Z :=
  match _sorted_data (self s) with
  | Some sd => sd
  | None => sorted (data_of s)
  end.

(** While there is data, the memoised sorted list, when there is one, has
    an element.  Every method that fills [_sorted_data] does so from
    non-empty data. *)
Definition view_ok (s : state) : Prop :=
  data_of s <> [] -> _sorted_data (self s) <> Some [].

Definition max_freq_of (d : list Z) : nat :=
  match map snd (Counter d) with
  | [] => 0%nat
  | k :: ks => fold_left Nat.max ks k
  end.

Definition mode_of (d : list Z) : list Z := modes_of (Counter d) (max_freq_of d).

Ltac unfold_monad :=
  unfold cache_get, cache_clear, set__cache, set__sorted_data, set__data,
    read_data, alloc, store, load, put_self, get_self, lift, try_except,
    bind, raise, ret;
  cbv beta iota delta [hp self _data _sorted_data _cache c_mean c_median c_mode].

(** ** [Counter], [max] and the modes *)

(** Number of occurrences of a value in a list. *)
Definition occ (d : list Z) (v : Z) : nat := count_occ Z.eq_dec d v.

(** What [Counter] holds after the values [pre] have been counted. *)
Definition counts (c : list (Z * nat)) (pre : list Z) : Prop :=
  List.NoDup (map fst c) /\
  (forall v k, In (v, k) c -> k = occ pre v /\ (0 < k)%nat) /\
  (forall v, In v pre -> In v (map fst c)).

(** ** The variance that [standard_deviation] computes *)

(** The mean that [standard_deviation] works with: whatever [mean] returns. *)
Definition mean_view (s : state) : Q :=
  match c_mean (_cache (self s)) with
  | Some q => q
  | None => mean_of (data_of s)
  end.

Definition sq_dev_sum (mean_val : Q) (d : list Z) : Q :=
  py_fsum (map (fun x => Qpower (float x - mean_val) 2) d).

Definition variance_of (population : bool) (mean_val : Q) (d : list Z) : Q :=
  Qred (sq_dev_sum mean_val d / inject_Z (if population then len d else len d - 1)).

(** ** The variance over the reals *)




(** ** [standard_deviation] with an open branch *)

(** [standard_deviation] with the body of its [population and n == 0]
    branch left open: the same code, with [zero_branch] where the source
    has [return 0.0]. *)
Definition standard_deviation_with (zero_branch : M R) (population : bool) : M R :=
  let! d := read_data in
  match d with
  | [] => raise (PyExn ValueError "Cannot calculate standard deviation: data is empty")
  | _ :: _ =>
      let n := len d in
      if population && (n =? 0) then zero_branch
      else if negb population && (n <? 2) then
        raise (PyExn ValueError
          "Cannot calculate sample standard deviation with less than 2 data points")
      else
        let! mean_val := mean in
        let! d := read_data in
        let! variance :=
          lift (fdiv (py_fsum (map (fun x => Qpower (float x - mean_val) 2) d))
                     (if population then n else n - 1)) in
        lift (math_sqrt variance)
  end.

(** ** The calls made by [summary] *)

(** A state in which the methods can run: the data reference is valid and
    the sorted view, if memoised while there is data, has an element. *)
Definition well_formed (s : state) : Prop := valid s /\ view_ok s.

(** A reader call that can only fail with a [ValueError], and that keeps
    the state well formed and the data as they are. *)
Definition benign {A} (m : M A) (s : state) : Prop :=
  (forall e, outcome m s = Raise e -> exn_type e = ValueError) /\
  well_formed (run m s) /\ data_of (run m s) = data_of s.

(** [None] for a failed call, as [summary] stores it. *)
Definition opt {A} (r : result A) : option A :=
  match r with
  | Ok v => Some v
  | Raise _ => None
  end.

(** The states in which [summary] calls the readers, one after the other. *)
Definition after_mean (s : state) : state := run mean s.
Definition after_median (s : state) : state := run median (after_mean s).
Definition after_mode (s : state) : state := run mode (after_median s).
Definition after_sample (s : state) : state :=
  run (standard_deviation false) (after_mode s).
Definition after_population (s : state) : state :=
  run (standard_deviation true) (after_sample s).
Definition after_range (s : state) : state := run range (after_population s).

(** ** The life of a calculator *)

(** The calls that a client can make on a calculator. *)
Inductive call :=
| call_data
| call_set_data (new_data : loc)
| call_add_value (value : Z)
| call_add_values (values : loc)
| call_clear_data
| call_mean
| call_median
| call_mode
| call_standard_deviation (population : bool)
| call_range
| call_summary.

(** The state after a call, whether it returns or raises. *)
Definition exec (c : call) (s : state) : state :=
  match c with
  | call_data => run data s
  | call_set_data new_data => run (set_data new_data) s
  | call_add_value v => run (add_value v) s
  | call_add_values values => run (add_values values) s
  | call_clear_data => run clear_data s
  | call_mean => run mean s
  | call_median => run median s
  | call_mode => run mode s
  | call_standard_deviation population => run (standard_deviation population) s
  | call_range => run range s
  | call_summary => run summary s
  end.

Definition is_mutator (c : call) : bool :=
  match c with
  | call_set_data _ | call_add_value _ | call_add_values _ | call_clear_data => true
  | _ => false
  end.

(** The lists passed as arguments are objects of the store. *)
Definition args_valid (c : call) (s : state) : Prop :=
  match c with
  | call_set_data r | call_add_values r => (r < length (hp s))%nat
  | _ => True
  end.

(** A step of the rest of the program: the fields of the calculator are
    out of its reach, list objects are not.  It may change the content of
    any list and create new ones. *)
Definition foreign_step (s s' : state) : Prop :=
  self s' = self s /\ (length (hp s) <= length (hp s'))%nat.

(** A foreign step that does not write to the lists the calculator
    holds: its data list and the list memoised under ['mode']. *)
Definition keeps_owned (s s' : state) : Prop :=
  hp s' !! _data (self s) = hp s !! _data (self s) /\
  (forall r, c_mode (_cache (self s)) = Some r -> hp s' !! r = hp s !! r).

(** Any foreign step is allowed. *)
Definition unrestricted (s s' : state) : Prop := True.

(** The states of a calculator that a program can reach: construction,
    calls on the calculator, and foreign steps that satisfy [allowed]. *)
Inductive reachable (allowed : state -> state -> Prop) : state -> Prop :=
| reach_init (h : heap) (d : option loc) :
    (forall r, d = Some r -> (r < length h)%nat) ->
    reachable allowed (init d h)
| reach_call (s : state) (c : call) :
    reachable allowed s -> args_valid c s -> reachable allowed (exec c s)
| reach_foreign (s s' : state) :
    reachable allowed s -> foreign_step s s' -> allowed s s' ->
    reachable allowed s'.

(** ** Further definitions: readers, aliasing, counting, rendering *)

(** ** More observations on calls *)

(** The calls that compute one statistic. *)
Definition is_reader (c : call) : bool :=
  match c with
  | call_mean | call_median | call_mode | call_standard_deviation _ | call_range => true
  | _ => false
  end.

(** The list that [mode()] returns, read in the store left by the call. *)
Definition returned_modes (s : state) : result (list Z) :=
  match mode s with
  | (Ok r, s') => Ok (default [] (hp s' !! r))
  | (Raise e, _) => Raise e
  end.

(** [for v in vs: self.add_value(v)] *)
Definition add_each (vs : list Z) (s : state) : state :=
  fold_left (fun st v => run (add_value v) st) vs s.

(** Another calculator object looked at in the store of [s]. *)
Definition seen_by (other : StatisticsCalculator) (s : state) : state :=
  mkState (hp s) other.



(** What [standard_deviation] answers from a memoised mean: the outcome
    of its last three branches. *)
Definition deviation_from (population : bool) (mean_val : Q) (d : list Z) : result R :=
  if negb population && (len d <? 2) then
    Raise (PyExn ValueError
      "Cannot calculate sample standard deviation with less than 2 data points")
  else Ok (sqrt (Q2R (variance_of population mean_val d))).

(** Everything is memoised: the three cache entries and a sorted view
    with an element. *)
Definition warm (s : state) : Prop :=
  (exists q, c_mean (_cache (self s)) = Some q) /\
  (exists q, c_median (_cache (self s)) = Some q) /\
  (exists r, c_mode (_cache (self s)) = Some r) /\
  (exists sv, _sorted_data (self s) = Some sv /\ sv <> []).



(** ** [__str__] *)






Section Rendering.

(** The text of a float is left open: [format(x, '.4f')] for the floats
    the model keeps as rationals and as reals, and [str(x)]. *)
Variable format_4f : Q -> string.
Variable format_4f_root : R -> string.
Variable str_float : Q -> string.







End Rendering.

(** * Properties *)

(** ** Facts about the built-ins *)

Section Builtins.

Lemma len_nonneg {A} (l : list A) : 0 <= len l.
Proof. unfold len. lia. Qed.

Lemma len_cons {A} (x : A) (l : list A) : len (x :: l) = len l + 1.
Proof. unfold len. simpl length. lia. Qed.

Lemma len_pos {A} (x : A) (l : list A) : 0 < len (x :: l).
Proof. rewrite len_cons. pose proof (len_nonneg l). lia. Qed.

(** [sum] from the left is the usual sum. *)
Lemma fold_left_add_shift (l : list Z) (a : Z) :
  fold_left Z.add l a = a + fold_right Z.add 0 l.
Proof.
  revert a. induction l as [|x l IH]; intros a; simpl.
  - lia.
  - rewrite IH. lia.
Qed.

Lemma py_sum_fold_right (l : list Z) : py_sum l = fold_right Z.add 0 l.
Proof. unfold py_sum. rewrite fold_left_add_shift. lia. Qed.

(** [sorted] returns an ascending permutation of its argument. *)
Lemma insert_sorted_perm (x : Z) (l : list Z) :
  Permutation (insert_sorted x l) (x :: l).
Proof.
  induction l as [|y l IH]; simpl.
  - reflexivity.
  - destruct (x <=? y).
    + reflexivity.
    + rewrite IH. apply perm_swap.
Qed.

Lemma sorted_perm (l : list Z) : Permutation (sorted l) l.
Proof.
  induction l as [|x l IH]; simpl.
  - reflexivity.
  - rewrite insert_sorted_perm. now constructor.
Qed.

Lemma insert_sorted_ascending (x : Z) (l : list Z) :
  StronglySorted Z.le l -> StronglySorted Z.le (insert_sorted x l).
Proof.
  induction 1 as [|y l Hl IH Hy]; simpl.
  - repeat constructor.
  - destruct (Z.leb_spec x y) as [Hxy|Hxy].
    + constructor.
      * now constructor.
      * constructor; [exact Hxy|].
        eapply List.Forall_impl; [|exact Hy]. intros z Hz. simpl in Hz. lia.
    + constructor; [exact IH|].
      eapply Permutation_Forall.
      * symmetry. apply insert_sorted_perm.
      * constructor; [lia|exact Hy].
Qed.

Lemma sorted_ascending (l : list Z) : StronglySorted Z.le (sorted l).
Proof.
  induction l as [|x l IH]; simpl.
  - constructor.
  - now apply insert_sorted_ascending.
Qed.

Lemma sorted_length (l : list Z) : length (sorted l) = length l.
Proof. apply Permutation_length, sorted_perm. Qed.

Lemma sorted_In (l : list Z) (x : Z) : In x (sorted l) <-> In x l.
Proof.
  split; apply Permutation_in; [|symmetry]; apply sorted_perm.
Qed.

(** An ascending list is determined by its elements: there is one sorted
    view of a given list. *)
Lemma ascending_perm_eq (l1 l2 : list Z) :
  StronglySorted Z.le l1 -> StronglySorted Z.le l2 ->
  Permutation l1 l2 -> l1 = l2.
Proof.
  intros H1. revert l2.
  induction H1 as [|x l1 Hl1 IH Hx]; intros l2 H2 Hp.
  - apply Permutation_nil in Hp. now subst.
  - destruct H2 as [|y l2 Hl2 Hy].
    + symmetry in Hp. now apply Permutation_nil in Hp.
    + assert (x = y) as ->.
      { assert (In x (y :: l2)) as Hin1
          by (eapply Permutation_in; [exact Hp|now left]).
        assert (In y (x :: l1)) as Hin2
          by (eapply Permutation_in; [symmetry; exact Hp|now left]).
        rewrite List.Forall_forall in Hx, Hy.
        destruct Hin1 as [->|Hin1]; [reflexivity|].
        destruct Hin2 as [->|Hin2]; [reflexivity|].
        specialize (Hx _ Hin2). specialize (Hy _ Hin1). simpl in *. lia. }
      f_equal. apply IH; [exact Hl2|].
      now apply Permutation_cons_inv in Hp.
Qed.

Lemma sorted_unique (l S : list Z) :
  StronglySorted Z.le S -> Permutation S l -> S = sorted l.
Proof.
  intros HS Hp. apply ascending_perm_eq; [exact HS|apply sorted_ascending|].
  rewrite Hp. symmetry. apply sorted_perm.
Qed.

End Builtins.

Section Indexing.

Lemma index_nth (l : list Z) (i : Z) :
  0 <= i < len l -> index l i = Ok (nth (Z.to_nat i) l 0).
Proof.
  intros Hi. unfold index.
  destruct (Z.ltb_spec i 0) as [?|_]; [lia|].
  destruct (Z.ltb_spec i 0) as [?|_]; [lia|].
  destruct (Z.leb_spec (len l) i) as [?|_]; [lia|]. simpl.
  destruct (nth_error l (Z.to_nat i)) as [x|] eqn:E.
  - now rewrite (nth_error_nth _ _ 0 E).
  - apply nth_error_None in E. unfold len in Hi. lia.
Qed.

Lemma index_minus_one (l : list Z) :
  l <> [] -> index l (-1) = Ok (nth (length l - 1) l 0).
Proof.
  intros Hl. unfold index.
  assert (0 < len l) by (destruct l; [congruence|apply len_pos]).
  change (-1 <? 0) with true. cbv iota.
  destruct (Z.ltb_spec (-1 + len l) 0) as [?|_]; [lia|].
  destruct (Z.leb_spec (len l) (-1 + len l)) as [?|_]; [lia|]. simpl.
  replace (Z.to_nat (-1 + len l)) with (length l - 1)%nat by (unfold len; lia).
  destruct (nth_error l (length l - 1)) as [x|] eqn:E.
  - now rewrite (nth_error_nth _ _ 0 E).
  - apply nth_error_None in E. unfold len in *. lia.
Qed.

(** Head and last element of an ascending list bound every element. *)
Lemma ascending_head_min (l : list Z) (x : Z) :
  StronglySorted Z.le l -> In x l -> nth 0 l 0 <= x.
Proof.
  intros Hs Hx. destruct Hs as [|y l Hl Hy]; [contradiction|]. simpl.
  destruct Hx as [->|Hx]; [lia|].
  rewrite List.Forall_forall in Hy. now apply Hy.
Qed.

Lemma ascending_last_max (l : list Z) (x : Z) :
  StronglySorted Z.le l -> In x l -> x <= nth (length l - 1) l 0.
Proof.
  intros Hs. revert x.
  induction Hs as [|y l Hl IH Hy]; intros x Hx; [contradiction|].
  destruct l as [|z l].
  - destruct Hx as [->|[]]. simpl. lia.
  - change (nth (length (y :: z :: l) - 1) (y :: z :: l) 0)
      with (nth (length l) (z :: l) 0).
    replace (length l) with (length (z :: l) - 1)%nat by (simpl; lia).
    destruct Hx as [->|Hx].
    + rewrite List.Forall_forall in Hy. etransitivity.
      * apply (Hy z). now left.
      * apply IH. now left.
    + now apply IH.
Qed.

End Indexing.

(** ** States of the calculator *)

Section Equations.

Lemma truediv_len (a : Z) {A} (x : A) (l : list A) :
  truediv a (len (x :: l)) = Ok (Qred (inject_Z a / inject_Z (len (x :: l)))).
Proof.
  unfold truediv. pose proof (len_pos x l).
  destruct (Z.eqb_spec (len (x :: l)) 0); [lia|reflexivity].
Qed.

Lemma mean_eq (s : state) :
  mean s =
  match c_mean (_cache (self s)) with
  | Some q => (Ok q, s)
  | None =>
      match data_of s with
      | [] => (Raise (PyExn ValueError "Cannot calculate mean: data is empty"), s)
      | d =>
          (Ok (mean_of d),
           with_cache s (mkCache (Some (mean_of d)) (c_median (_cache (self s)))
                                 (c_mode (_cache (self s)))))
      end
  end.
Proof.
  destruct s as [h [l sd [cm cmd cmo]]].
  unfold mean, data_of, with_cache, mean_of. unfold_monad.
  destruct cm as [q|]; [reflexivity|].
  destruct (default [] (h !! l)) as [|x d] eqn:E; [reflexivity|].
  rewrite truediv_len. reflexivity.
Qed.

Lemma _get_sorted_data_eq (s : state) :
  _get_sorted_data s = (Ok (sorted_view s), with_sorted s (Some (sorted_view s))).
Proof.
  destruct s as [h [l sd k]].
  unfold _get_sorted_data, sorted_view, with_sorted, data_of. unfold_monad.
  destruct sd as [sd|]; reflexivity.
Qed.

Lemma sorted_view_nonempty (s : state) :
  view_ok s -> data_of s <> [] -> sorted_view s <> [].
Proof.
  unfold view_ok, sorted_view. intros Hv Hd. specialize (Hv Hd).
  destruct (_sorted_data (self s)) as [sd|].
  - congruence.
  - intros E. apply Hd. apply length_zero_iff_nil.
    rewrite <- sorted_length, E. reflexivity.
Qed.

Lemma median_eq (s : state) :
  view_ok s ->
  median s =
  match c_median (_cache (self s)) with
  | Some q => (Ok q, s)
  | None =>
      match data_of s with
      | [] => (Raise (PyExn ValueError "Cannot calculate median: data is empty"), s)
      | _ =>
          (Ok (median_of_sorted (sorted_view s)),
           with_cache (with_sorted s (Some (sorted_view s)))
             (mkCache (c_mean (_cache (self s)))
                      (Some (median_of_sorted (sorted_view s)))
                      (c_mode (_cache (self s)))))
      end
  end.
Proof.
  intros Hv. pose proof (sorted_view_nonempty s Hv) as Hne.
  unfold median. unfold bind at 1. unfold get_self at 1.
  destruct (c_median (_cache (self s))) as [q|] eqn:Ec.
  - destruct s as [h [l sd [cm cmd cmo]]]. simpl in Ec. subst cmd.
    unfold_monad. reflexivity.
  - unfold bind at 1. unfold bind at 1. unfold read_data.
    unfold bind at 1. unfold get_self at 1. unfold load.
    fold (data_of s).
    destruct (data_of s) as [|x d] eqn:Ed.
    + destruct s as [h [l sd [cm cmd cmo]]]. reflexivity.
    + unfold bind at 1. rewrite _get_sorted_data_eq.
      specialize (Hne ltac:(discriminate)).
      set (sv := sorted_view s) in *.
      assert (0 < len sv) as Hlen by (destruct sv; [congruence|apply len_pos]).
      unfold median_of_sorted.
      destruct (Z.eqb_spec (len sv mod 2) 0) as [Heven|Hodd].
      * assert (0 <= len sv / 2 - 1 < len sv /\ 0 <= len sv / 2 < len sv)
          as [H1 H2].
        { pose proof (Z.div_mod (len sv) 2 ltac:(lia)). lia. }
        unfold_monad.
        rewrite (index_nth _ _ H1), (index_nth _ _ H2).
        unfold truediv. change (2 =? 0) with false. cbv iota.
        destruct s as [h [l sd [cm cmd cmo]]]. simpl in Ec. subst cmd.
        reflexivity.
      * assert (0 <= len sv / 2 < len sv) as H2.
        { pose proof (Z.div_mod (len sv) 2 ltac:(lia)).
          pose proof (Z.mod_pos_bound (len sv) 2 ltac:(lia)). lia. }
        unfold_monad.
        rewrite (index_nth _ _ H2).
        destruct s as [h [l sd [cm cmd cmo]]]. simpl in Ec. subst cmd.
        reflexivity.
Qed.

Lemma range_eq (s : state) :
  view_ok s ->
  range s =
  match data_of s with
  | [] => (Raise (PyExn ValueError "Cannot calculate range: data is empty"), s)
  | _ =>
      (Ok (range_of_sorted (sorted_view s)),
       with_sorted s (Some (sorted_view s)))
  end.
Proof.
  intros Hv. pose proof (sorted_view_nonempty s Hv) as Hne.
  unfold range. unfold bind at 1. unfold read_data.
  unfold bind at 1. unfold get_self at 1. unfold load.
  fold (data_of s).
  destruct (data_of s) as [|x d] eqn:Ed.
  - destruct s as [h [l sd k]]. reflexivity.
  - unfold bind at 1. rewrite _get_sorted_data_eq.
    specialize (Hne ltac:(discriminate)).
    set (sv := sorted_view s) in *.
    assert (0 < len sv) as Hlen by (destruct sv; [congruence|apply len_pos]).
    unfold_monad.
    rewrite (index_minus_one _ Hne), (index_nth sv 0 ltac:(lia)).
    reflexivity.
Qed.

End Equations.

(** ** [Counter], [max] and the modes *)

Section Frequencies.

Lemma occ_app (d1 d2 : list Z) (v : Z) : occ (d1 ++ d2) v = (occ d1 v + occ d2 v)%nat.
Proof. apply count_occ_app. Qed.

Lemma occ_pos_In (d : list Z) (v : Z) : In v d <-> (0 < occ d v)%nat.
Proof. unfold occ. rewrite (count_occ_In Z.eq_dec). lia. Qed.

Lemma counter_incr_keys (x : Z) (c : list (Z * nat)) (v : Z) :
  In v (map fst (counter_incr x c)) <-> v = x \/ In v (map fst c).
Proof.
  induction c as [|[y k] c IH]; simpl.
  - intuition congruence.
  - destruct (Z.eqb_spec x y) as [->|Hne]; simpl.
    + intuition congruence.
    + rewrite IH. intuition congruence.
Qed.

Lemma counter_incr_nodup (x : Z) (c : list (Z * nat)) :
  List.NoDup (map fst c) -> List.NoDup (map fst (counter_incr x c)).
Proof.
  induction c as [|[y k] c IH]; simpl; intros Hnd.
  - constructor; [intros []|constructor].
  - inversion Hnd as [|? ? Hy Hc]; subst.
    destruct (Z.eqb_spec x y) as [->|Hne]; simpl.
    + now constructor.
    + constructor; [|now apply IH].
      rewrite counter_incr_keys. intros [->|Hin]; [congruence|contradiction].
Qed.

Lemma In_fst {A B} (a : A) (b : B) (l : list (A * B)) :
  In (a, b) l -> In a (map fst l).
Proof. intros H. change a with (fst (a, b)). now apply in_map. Qed.

Lemma counter_incr_entries (x : Z) (c : list (Z * nat)) (v : Z) (k : nat) :
  List.NoDup (map fst c) ->
  In (v, k) (counter_incr x c) ->
  (v <> x /\ In (v, k) c) \/
  (v = x /\ ((exists k0, k = S k0 /\ In (x, k0) c) \/
             (k = 1%nat /\ ~ In x (map fst c)))).
Proof.
  induction c as [|[y j] c IH]; simpl; intros Hnd.
  - intros [E|[]]. inversion E; subst. right. split; [reflexivity|].
    right. split; [reflexivity|tauto].
  - inversion Hnd as [|? ? Hy Hc]; subst.
    destruct (Z.eqb_spec x y) as [->|Hne]; simpl.
    + intros [E|Hin].
      * inversion E; subst. right. split; [reflexivity|]. left.
        exists j. split; [reflexivity|now left].
      * left. split; [|now right].
        intros ->. apply Hy. eapply In_fst, Hin.
    + intros [E|Hin].
      * inversion E; subst. left. split; [congruence|now left].
      * destruct (IH Hc Hin) as [[Hv H]|[-> [[k0 [-> H]]|[-> H]]]].
        -- left. split; [exact Hv|now right].
        -- right. split; [reflexivity|]. left. exists k0.
           split; [reflexivity|now right].
        -- right. split; [reflexivity|]. right. split; [reflexivity|].
           intros [E|Hin']; [simpl in E; congruence|contradiction].
Qed.

Lemma counts_step (c : list (Z * nat)) (pre : list Z) (x : Z) :
  counts c pre -> counts (counter_incr x c) (pre ++ [x]).
Proof.
  intros (Hnd & Hk & Hin). split; [|split].
  - now apply counter_incr_nodup.
  - intros v k Hvk. rewrite occ_app. unfold occ at 2. simpl.
    destruct (counter_incr_entries _ _ _ _ Hnd Hvk)
      as [[Hv H]|[-> [[k0 [-> H]]|[-> H]]]].
    + destruct (Z.eq_dec x v) as [E|_]; [congruence|].
      destruct (Hk _ _ H). lia.
    + destruct (Z.eq_dec x x) as [_|E]; [|congruence].
      destruct (Hk _ _ H). lia.
    + destruct (Z.eq_dec x x) as [_|E]; [|congruence].
      assert (occ pre x = 0%nat).
      { destruct (occ pre x) eqn:E; [reflexivity|].
        exfalso. apply H, Hin, occ_pos_In. lia. }
      lia.
  - intros v Hv. rewrite counter_incr_keys.
    apply in_app_or in Hv. destruct Hv as [Hv|[->|[]]]; auto.
Qed.

Lemma counts_fold (l : list Z) (c : list (Z * nat)) (pre : list Z) :
  counts c pre ->
  counts (fold_left (fun c x => counter_incr x c) l c) (pre ++ l).
Proof.
  revert c pre. induction l as [|x l IH]; intros c pre Hc; simpl.
  - now rewrite app_nil_r.
  - replace (pre ++ x :: l) with ((pre ++ [x]) ++ l)
      by (rewrite <- app_assoc; reflexivity).
    apply IH. now apply counts_step.
Qed.

Lemma Counter_counts (d : list Z) : counts (Counter d) d.
Proof.
  unfold Counter. change d with ([] ++ d) at 2. apply counts_fold.
  split; [constructor|split]; intros; contradiction.
Qed.

Lemma Counter_entry (d : list Z) (v : Z) :
  In v d -> In (v, occ d v) (Counter d).
Proof.
  intros Hv. destruct (Counter_counts d) as (_ & Hk & Hin).
  specialize (Hin _ Hv). apply in_map_iff in Hin.
  destruct Hin as [[w k] [E H]]. simpl in E. subst w.
  destruct (Hk _ _ H) as [-> _]. exact H.
Qed.

Lemma Counter_nonempty (d : list Z) : d <> [] -> Counter d <> [].
Proof.
  destruct d as [|x d]; [congruence|]. intros _ E.
  pose proof (Counter_entry (x :: d) x ltac:(now left)) as H.
  rewrite E in H. contradiction.
Qed.

(** [max] of a non-empty sequence bounds it and belongs to it. *)
Lemma fold_max_bound (ks : list nat) (k : nat) :
  (k <= fold_left Nat.max ks k)%nat /\
  (forall j, In j ks -> (j <= fold_left Nat.max ks k)%nat) /\
  In (fold_left Nat.max ks k) (k :: ks).
Proof.
  revert k. induction ks as [|j ks IH]; intros k; simpl.
  - split; [lia|]. split; [intros ? []|now left].
  - destruct (IH (Nat.max k j)) as (H1 & H2 & H3). split; [lia|]. split.
    + intros i [->|Hi]; [lia|now apply H2].
    + destruct H3 as [H3|H3]; [|now right; right].
      destruct (Nat.max_spec k j) as [[_ E]|[_ E]]; rewrite E in H3 at 1;
        [right; left|left]; exact H3.
Qed.

Lemma py_max_Counter (d : list Z) :
  d <> [] -> py_max (map snd (Counter d)) = Ok (max_freq_of d).
Proof.
  intros Hd. apply Counter_nonempty in Hd. unfold max_freq_of, py_max.
  destruct (Counter d); [congruence|reflexivity].
Qed.

Lemma max_freq_bound (d : list Z) (v : Z) : (occ d v <= max_freq_of d)%nat.
Proof.
  destruct (in_dec Z.eq_dec v d) as [Hv|Hv].
  - apply Counter_entry in Hv. unfold max_freq_of.
    apply (in_map snd) in Hv. simpl in Hv.
    destruct (map snd (Counter d)) as [|k ks]; [contradiction|].
    destruct (fold_max_bound ks k) as (H1 & H2 & _).
    destruct Hv as [<-|Hv]; [exact H1|now apply H2].
  - apply (count_occ_not_In Z.eq_dec) in Hv. unfold occ. rewrite Hv. lia.
Qed.

Lemma max_freq_attained (d : list Z) :
  d <> [] -> exists v, In (v, max_freq_of d) (Counter d).
Proof.
  intros Hd. apply Counter_nonempty in Hd. unfold max_freq_of.
  destruct (map snd (Counter d)) as [|k ks] eqn:E.
  - destruct (Counter d); [congruence|discriminate].
  - destruct (fold_max_bound ks k) as (_ & _ & H3).
    rewrite <- E in H3. apply in_map_iff in H3.
    destruct H3 as [[v j] [Ej H]]. simpl in Ej. subst j. now exists v.
Qed.

End Frequencies.

Section Modes.

Lemma nodup_map_filter {A B} (f : A -> B) (p : A -> bool) (l : list A) :
  List.NoDup (map f l) -> List.NoDup (map f (List.filter p l)).
Proof.
  induction l as [|a l IH]; simpl; intros Hnd; [constructor|].
  inversion Hnd as [|? ? Ha Hl]; subst.
  destruct (p a); simpl; [|now apply IH].
  constructor; [|now apply IH].
  intros Hin. apply Ha. apply in_map_iff in Hin.
  destruct Hin as [b [E Hb]]. apply filter_In in Hb.
  apply in_map_iff. exists b. tauto.
Qed.

(** An ascending list without repetition is strictly ascending. *)
Lemma ascending_nodup_strict (l : list Z) :
  StronglySorted Z.le l -> List.NoDup l -> StronglySorted Z.lt l.
Proof.
  induction 1 as [|x l Hl IH Hx]; intros Hnd; [constructor|].
  inversion Hnd as [|? ? Hnx Hndl]; subst.
  constructor; [now apply IH|].
  rewrite List.Forall_forall in *. intros y Hy.
  specialize (Hx _ Hy). simpl in Hx.
  assert (x <> y) by (intros ->; contradiction). lia.
Qed.

Lemma strict_nodup (l : list Z) : StronglySorted Z.lt l -> List.NoDup l.
Proof.
  induction 1 as [|x l Hl IH Hx]; constructor; [|exact IH].
  rewrite List.Forall_forall in Hx. intros Hin.
  specialize (Hx _ Hin). simpl in Hx. lia.
Qed.

Lemma mode_of_In (d : list Z) (v : Z) :
  In v (mode_of d) <-> In v d /\ occ d v = max_freq_of d.
Proof.
  unfold mode_of, modes_of. rewrite sorted_In, in_map_iff.
  destruct (Counter_counts d) as (_ & Hk & _). split.
  - intros [[w k] [E H]]. simpl in E. subst w.
    apply filter_In in H. destruct H as [H Hmax]. simpl in Hmax.
    apply Nat.eqb_eq in Hmax. destruct (Hk _ _ H) as [-> Hpos].
    split; [now apply occ_pos_In|exact Hmax].
  - intros [Hv Hmax]. exists (v, occ d v). split; [reflexivity|].
    apply filter_In. split; [now apply Counter_entry|].
    simpl. now apply Nat.eqb_eq.
Qed.

Lemma mode_of_strict (d : list Z) : StronglySorted Z.lt (mode_of d).
Proof.
  unfold mode_of, modes_of. apply ascending_nodup_strict.
  - apply sorted_ascending.
  - eapply Permutation_NoDup; [symmetry; apply sorted_perm|].
    apply nodup_map_filter. apply (Counter_counts d).
Qed.

Lemma mode_of_nonempty (d : list Z) : d <> [] -> mode_of d <> [].
Proof.
  intros Hd. destruct (max_freq_attained d Hd) as [v Hv].
  destruct (Counter_counts d) as (_ & Hk & _).
  destruct (Hk _ _ Hv) as [E Hpos].
  assert (In v (mode_of d)) as Hin.
  { apply mode_of_In. split; [apply occ_pos_In; lia|now symmetry]. }
  intros E'. rewrite E' in Hin. contradiction.
Qed.

End Modes.

(** ** [mode] and [standard_deviation] as equations *)

Section Equations2.

Lemma mode_eq (s : state) :
  mode s =
  match c_mode (_cache (self s)) with
  | Some r => (Ok r, s)
  | None =>
      match data_of s with
      | [] => (Raise (PyExn ValueError "Cannot calculate mode: data is empty"), s)
      | d =>
          (Ok (length (hp s)),
           mkState (hp s ++ [mode_of d])
             (mkCalc (_data (self s)) (_sorted_data (self s))
                (mkCache (c_mean (_cache (self s))) (c_median (_cache (self s)))
                         (Some (length (hp s))))))
      end
  end.
Proof.
  destruct s as [h [l sd [cm cmd cmo]]].
  unfold mode, data_of, mode_of. unfold_monad.
  destruct cmo as [r|]; [reflexivity|].
  destruct (default [] (h !! l)) as [|x d] eqn:E; [reflexivity|].
  rewrite py_max_Counter by discriminate. reflexivity.
Qed.

Lemma fold_left_Qplus_nonneg (l : list Q) (a : Q) :
  (0 <= a)%Q -> Forall (fun q => 0 <= q)%Q l -> (0 <= fold_left Qplus l a)%Q.
Proof.
  revert a. induction l as [|q l IH]; intros a Ha Hl; simpl; [exact Ha|].
  inversion Hl; subst. apply IH; [|assumption].
  replace 0%Q with (0 + 0)%Q by reflexivity. now apply Qplus_le_compat.
Qed.

Lemma sq_dev_sum_nonneg (m : Q) (d : list Z) : (0 <= sq_dev_sum m d)%Q.
Proof.
  unfold sq_dev_sum, py_fsum. apply fold_left_Qplus_nonneg.
  - apply Qle_refl.
  - apply List.Forall_forall. intros q Hq. apply in_map_iff in Hq.
    destruct Hq as [x [<- _]]. apply Qsqr_nonneg.
Qed.

Lemma variance_of_nonneg (population : bool) (m : Q) (d : list Z) :
  0 < (if population then len d else len d - 1) ->
  (0 <= variance_of population m d)%Q.
Proof.
  intros Hn. unfold variance_of. rewrite Qred_correct.
  apply Qle_shift_div_l.
  - change 0%Q with (inject_Z 0). rewrite <- Zlt_Qlt. exact Hn.
  - rewrite Qmult_0_l. apply sq_dev_sum_nonneg.
Qed.

Lemma math_sqrt_nonneg (v : Q) : (0 <= v)%Q -> math_sqrt v = Ok (sqrt (Q2R v)).
Proof.
  intros Hv. unfold math_sqrt. destruct (Qlt_le_dec v 0) as [Hlt|_]; [|reflexivity].
  exfalso. apply (Qlt_not_le _ _ Hlt Hv).
Qed.

Lemma standard_deviation_eq (population : bool) (s : state) :
  standard_deviation population s =
  match data_of s with
  | [] =>
      (Raise (PyExn ValueError "Cannot calculate standard deviation: data is empty"), s)
  | d =>
      if negb population && (len d <? 2) then
        (Raise (PyExn ValueError
           "Cannot calculate sample standard deviation with less than 2 data points"), s)
      else
        (Ok (sqrt (Q2R (variance_of population (mean_view s) d))), run mean s)
  end.
Proof.
  unfold standard_deviation. unfold bind at 1. unfold read_data.
  unfold bind at 1. unfold get_self at 1. unfold load. fold (data_of s).
  destruct (data_of s) as [|x d] eqn:Ed; [reflexivity|].
  pose proof (len_pos x d) as Hlen.
  destruct (Z.eqb_spec (len (x :: d)) 0) as [?|_]; [lia|].
  rewrite andb_false_r.
  destruct (negb population && (len (x :: d) <? 2)) eqn:Eg; [reflexivity|].
  assert (0 < (if population then len (x :: d) else len (x :: d) - 1)) as Hn.
  { destruct population; [exact Hlen|]. simpl in Eg.
    destruct (Z.ltb_spec (len (x :: d)) 2); [discriminate|lia]. }
  unfold bind at 1. unfold run, mean_view. rewrite mean_eq.
  unfold variance_of, sq_dev_sum in *.
  pose proof (variance_of_nonneg population) as Hv.
  unfold variance_of, sq_dev_sum in Hv.
  destruct (c_mean (_cache (self s))) as [q|] eqn:Ec.
  - unfold bind at 1. unfold read_data.
    unfold bind at 1. unfold get_self at 1. unfold load. fold (data_of s).
    rewrite Ed. unfold bind at 1. unfold lift at 1. unfold fdiv.
    destruct (Z.eqb_spec (if population then len (x :: d) else len (x :: d) - 1) 0)
      as [?|_]; [lia|].
    unfold lift. rewrite math_sqrt_nonneg; [reflexivity|].
    apply (Hv q (x :: d) Hn).
  - rewrite Ed.
    unfold bind at 1. unfold read_data.
    unfold bind at 1. unfold get_self at 1. unfold load.
    change (default [] (hp (with_cache s _) !! _data (self (with_cache s _))))
      with (data_of s).
    rewrite Ed. unfold bind at 1. unfold lift at 1. unfold fdiv.
    destruct (Z.eqb_spec (if population then len (x :: d) else len (x :: d) - 1) 0)
      as [?|_]; [lia|].
    unfold lift. rewrite math_sqrt_nonneg; [reflexivity|].
    apply (Hv (mean_of (x :: d)) (x :: d) Hn).
Qed.

End Equations2.

(** ** The invariant, unfolded *)

Section Invariant.

Lemma data_of_invalidated (s : state) : data_of (invalidated s) = data_of s.
Proof. reflexivity. Qed.

Lemma fresh_mean_eq (s : state) :
  fresh mean s =
  match data_of s with
  | [] => Raise (PyExn ValueError "Cannot calculate mean: data is empty")
  | d => Ok (mean_of d)
  end.
Proof.
  unfold fresh, outcome. rewrite mean_eq, data_of_invalidated. simpl.
  now destruct (data_of s).
Qed.

Lemma fresh_median_eq (s : state) :
  fresh median s =
  match data_of s with
  | [] => Raise (PyExn ValueError "Cannot calculate median: data is empty")
  | d => Ok (median_of d)
  end.
Proof.
  unfold fresh, outcome. rewrite median_eq by (intros _; discriminate).
  rewrite data_of_invalidated.
  change (c_median (_cache (self (invalidated s)))) with (@None Q).
  change (sorted_view (invalidated s)) with (sorted (data_of s)).
  unfold median_of. now destruct (data_of s).
Qed.

Lemma lookup_snoc (h : heap) (l : list Z) : (h ++ [l]) !! length h = Some l.
Proof. rewrite lookup_app_r by lia. now rewrite Nat.sub_diag. Qed.

Lemma fresh_mode_eq (s : state) :
  fresh_mode s =
  match data_of s with
  | [] => Raise (PyExn ValueError "Cannot calculate mode: data is empty")
  | d => Ok (mode_of d)
  end.
Proof.
  unfold fresh_mode. rewrite mode_eq, data_of_invalidated. simpl.
  destruct (data_of s); [reflexivity|].
  simpl. now rewrite lookup_snoc.
Qed.

(** The invariant says what each memoised entry is. *)
Lemma consistent_iff (s : state) :
  consistent s <->
  valid s /\
  (forall S, _sorted_data (self s) = Some S -> S = sorted (data_of s)) /\
  (forall q, c_mean (_cache (self s)) = Some q ->
     data_of s <> [] /\ q = mean_of (data_of s)) /\
  (forall q, c_median (_cache (self s)) = Some q ->
     data_of s <> [] /\ q = median_of (data_of s)) /\
  (forall r, c_mode (_cache (self s)) = Some r ->
     data_of s <> [] /\ hp s !! r = Some (mode_of (data_of s))).
Proof.
  unfold consistent.
  rewrite fresh_mean_eq, fresh_median_eq, fresh_mode_eq.
  split; intros (Hv & Hs & Hm & Hmd & Hmo); (split; [exact Hv|]);
    (split; [exact Hs|]); (split; [|split]).
  - intros q Hq. specialize (Hm q Hq).
    destruct (data_of s); [discriminate|]. split; [discriminate|congruence].
  - intros q Hq. specialize (Hmd q Hq).
    destruct (data_of s); [discriminate|]. split; [discriminate|congruence].
  - intros r Hr. destruct (Hmo r Hr) as [ms [H1 H2]].
    destruct (data_of s); [discriminate|]. split; [discriminate|congruence].
  - intros q Hq. destruct (Hm q Hq) as [Hd ->].
    now destruct (data_of s).
  - intros q Hq. destruct (Hmd q Hq) as [Hd ->].
    now destruct (data_of s).
  - intros r Hr. destruct (Hmo r Hr) as [Hd Hl].
    exists (mode_of (data_of s)). split; [exact Hl|].
    now destruct (data_of s).
Qed.

Lemma nothing_cached_consistent (s : state) :
  valid s -> nothing_cached s -> consistent s.
Proof.
  intros Hv [Hs Hc]. apply consistent_iff. rewrite Hs, Hc. simpl.
  repeat split; try exact Hv; discriminate.
Qed.

Lemma init_consistent (h : heap) (data : option loc) :
  (forall r, data = Some r -> (r < length h)%nat) -> consistent (init data h).
Proof.
  intros Hr. apply nothing_cached_consistent.
  - unfold valid. destruct data as [r|]; simpl.
    + now apply Hr.
    + rewrite length_app. simpl. lia.
  - destruct data; split; reflexivity.
Qed.

Lemma consistent_view_ok (s : state) : consistent s -> view_ok s.
Proof.
  intros (_ & Hs & _) Hd E. specialize (Hs _ E).
  apply Hd. apply length_zero_iff_nil. rewrite <- sorted_length, <- Hs. reflexivity.
Qed.

Lemma consistent_sorted_view (s : state) :
  consistent s -> sorted_view s = sorted (data_of s).
Proof.
  intros (_ & Hs & _). unfold sorted_view.
  destruct (_sorted_data (self s)) as [S|]; [now apply Hs|reflexivity].
Qed.

End Invariant.

(** A calculator just built on a list of the store is consistent. *)
Ltac new_calculator :=
  apply init_consistent;
  let r := fresh "r" in let Hr := fresh "Hr" in
  intros r Hr; inversion Hr; simpl; lia.

(** ** What each reader does in a consistent state *)

Lemma lookup_snoc_valid (h : heap) (l : list Z) (r : loc) :
  (r < length h)%nat -> (h ++ [l]) !! r = h !! r.
Proof. intros Hr. now apply lookup_app_l. Qed.

Section Readers.

(** A calculator in a consistent state. *)
Variable s : state.
Hypothesis Hc : consistent s.

Lemma mean_spec :
  consistent (run mean s) /\ data_of (run mean s) = data_of s /\
  outcome mean s = fresh mean s.
Proof.
  rewrite fresh_mean_eq. unfold run, outcome. rewrite mean_eq.
  pose proof Hc as Hc'. apply consistent_iff in Hc'.
  destruct Hc' as (Hv & Hs & Hm & Hmd & Hmo).
  destruct (c_mean (_cache (self s))) as [q|] eqn:Eq.
  - simpl. destruct (Hm q eq_refl) as [Hd ->].
    split; [exact Hc|]. split; [reflexivity|]. now destruct (data_of s).
  - destruct (data_of s) as [|x d] eqn:Ed; simpl.
    + now rewrite Ed.
    + split; [|split; [exact Ed|reflexivity]].
      apply consistent_iff. unfold with_cache, data_of in *. simpl.
      rewrite Ed in *. repeat split; try assumption; try discriminate;
        try (now apply Hmd); try (now apply Hmo).
      congruence.
Qed.

Lemma median_spec :
  consistent (run median s) /\ data_of (run median s) = data_of s /\
  outcome median s = fresh median s.
Proof.
  rewrite fresh_median_eq. unfold run, outcome.
  rewrite median_eq by now apply consistent_view_ok.
  rewrite (consistent_sorted_view s Hc).
  pose proof Hc as Hc'. apply consistent_iff in Hc'.
  destruct Hc' as (Hv & Hs & Hm & Hmd & Hmo).
  destruct (c_median (_cache (self s))) as [q|] eqn:Eq.
  - simpl. destruct (Hmd q eq_refl) as [Hd ->].
    split; [exact Hc|]. split; [reflexivity|]. now destruct (data_of s).
  - fold (median_of (data_of s)).
    destruct (data_of s) as [|x d] eqn:Ed; simpl.
    + now rewrite Ed.
    + split; [|split; [exact Ed|reflexivity]].
      apply consistent_iff. unfold with_cache, with_sorted, data_of in *. simpl.
      rewrite Ed in *. repeat split; try assumption; try discriminate;
        try (now apply Hm); try (now apply Hmo); try congruence.
      intros S HS. now inversion HS.
Qed.

Lemma mode_spec :
  consistent (run mode s) /\ data_of (run mode s) = data_of s /\
  match outcome mode s with
  | Ok r => Ok (default [] (hp (run mode s) !! r))
  | Raise e => Raise e
  end = fresh_mode s.
Proof.
  rewrite fresh_mode_eq. unfold run, outcome. rewrite mode_eq.
  pose proof Hc as Hc'. apply consistent_iff in Hc'.
  destruct Hc' as (Hv & Hs & Hm & Hmd & Hmo).
  destruct (c_mode (_cache (self s))) as [r|] eqn:Eq.
  - simpl. destruct (Hmo r eq_refl) as [Hd ->].
    split; [exact Hc|]. split; [reflexivity|]. now destruct (data_of s).
  - destruct (data_of s) as [|x d] eqn:Ed; cbv beta iota; unfold fst, snd.
    + now rewrite Ed.
    + assert (data_of (mkState (hp s ++ [mode_of (x :: d)])
                (mkCalc (_data (self s)) (_sorted_data (self s))
                   (mkCache (c_mean (_cache (self s))) (c_median (_cache (self s)))
                      (Some (length (hp s)))))) = x :: d) as Ed'.
      { unfold data_of in *. simpl. now rewrite lookup_snoc_valid. }
      split; [|split; [exact Ed'|]].
      * apply consistent_iff. rewrite Ed'. simpl.
        split; [unfold valid in *; simpl; rewrite length_app; simpl; lia|].
        split; [exact Hs|]. split; [exact Hm|]. split; [exact Hmd|].
        intros r Hr. inversion Hr; subst. split; [discriminate|].
        apply lookup_snoc.
      * simpl. now rewrite lookup_snoc.
Qed.

Lemma range_spec :
  consistent (run range s) /\ data_of (run range s) = data_of s /\
  outcome range s =
  match data_of s with
  | [] => Raise (PyExn ValueError "Cannot calculate range: data is empty")
  | d => Ok (range_of_sorted (sorted d))
  end.
Proof.
  unfold run, outcome.
  rewrite range_eq by now apply consistent_view_ok.
  rewrite (consistent_sorted_view s Hc).
  pose proof Hc as Hc'. apply consistent_iff in Hc'.
  destruct Hc' as (Hv & Hs & Hm & Hmd & Hmo).
  destruct (data_of s) as [|x d] eqn:Ed; simpl.
  - now rewrite Ed.
  - split; [|split; [exact Ed|reflexivity]].
    apply consistent_iff. unfold with_sorted, data_of in *. simpl.
    rewrite Ed in *.
    split; [exact Hv|]. split; [intros S HS; now inversion HS|].
    split; [exact Hm|]. split; [exact Hmd|exact Hmo].
Qed.

Lemma standard_deviation_spec (population : bool) :
  consistent (run (standard_deviation population) s) /\
  data_of (run (standard_deviation population) s) = data_of s /\
  outcome (standard_deviation population) s =
  match data_of s with
  | [] =>
      Raise (PyExn ValueError "Cannot calculate standard deviation: data is empty")
  | d =>
      if negb population && (len d <? 2) then
        Raise (PyExn ValueError
          "Cannot calculate sample standard deviation with less than 2 data points")
      else Ok (sqrt (Q2R (variance_of population (mean_of d) d)))
  end.
Proof.
  unfold run at 1 2, outcome. rewrite standard_deviation_eq.
  destruct mean_spec as (Hc1 & Hd1 & Hv1).
  assert (data_of s <> [] -> mean_view s = mean_of (data_of s)) as Hmv.
  { intros Hd. unfold mean_view. apply consistent_iff in Hc.
    destruct Hc as (_ & _ & Hm & _).
    destruct (c_mean (_cache (self s))) as [q|]; [|reflexivity].
    now destruct (Hm q eq_refl). }
  destruct (data_of s) as [|x d] eqn:Ed; simpl.
  - now rewrite Ed.
  - destruct (negb population && (len (x :: d) <? 2)); simpl.
    + now rewrite Ed.
    + rewrite Hmv by discriminate. now rewrite Hd1.
Qed.

End Readers.

(** ** Mean, median and range *)

Section CentralValues.







(** C8.  In a consistent calculator whose data is the non-empty list [D],
    [range()] returns the integer max(D) - min(D), which is 0 when all
    elements of [D] are equal; on empty data it raises. *)
Theorem range_is_max_minus_min (s : state) (D : list Z) :
  consistent s -> data_of s = D ->
  (D <> [] ->
   exists mx mn, In mx D /\ In mn D /\ (forall x, In x D -> mn <= x <= mx) /\
     outcome range s = Ok (mx - mn)) /\
  (D <> [] -> (forall x y, In x D -> In y D -> x = y) -> outcome range s = Ok 0) /\
  (D = [] -> exists msg, outcome range s = Raise (PyExn ValueError msg)).
Proof.
  intros Hc HD. destruct (range_spec s Hc) as (_ & _ & Hv). rewrite HD in Hv.
  assert (D <> [] ->
    exists mx mn, In mx D /\ In mn D /\ (forall x, In x D -> mn <= x <= mx) /\
      outcome range s = Ok (mx - mn)) as Hmain.
  { intros Hne. destruct D as [|x D]; [congruence|].
    set (sd := sorted (x :: D)) in *.
    assert (0 < length sd)%nat as Hpos
      by (unfold sd; rewrite sorted_length; simpl; lia).
    exists (nth (length sd - 1) sd 0), (nth 0 sd 0).
    split; [apply sorted_In, nth_In; fold sd; lia|].
    split; [apply sorted_In, nth_In; fold sd; lia|].
    split; [|exact Hv].
    intros y Hy. apply sorted_In in Hy. split.
    - apply ascending_head_min; [apply sorted_ascending|exact Hy].
    - apply ascending_last_max; [apply sorted_ascending|exact Hy]. }
  split; [exact Hmain|]. split.
  - intros Hne Heq. destruct (Hmain Hne) as (mx & mn & Hmx & Hmn & _ & ->).
    rewrite (Heq mx mn Hmx Hmn). f_equal. lia.
  - intros ->. eexists. exact Hv.
Qed.

Lemma range_is_max_minus_min_witness :
  exists mx mn, In mx [85; 92; 67] /\ In mn [85; 92; 67] /\
    (forall x, In x [85; 92; 67] -> mn <= x <= mx) /\
    outcome range (init (Some 0%nat) [[85; 92; 67]]) = Ok (mx - mn).
Proof.
  destruct (range_is_max_minus_min (init (Some 0%nat) [[85; 92; 67]]) [85; 92; 67])
    as [H _].
  - new_calculator.
  - reflexivity.
  - apply H. discriminate.
Defined.

End CentralValues.

(** ** Mode *)

Section ModeClaim.

(** C5.  In a consistent calculator whose data is the non-empty list [D],
    [mode()] returns a list that is not empty, holds only values of [D]
    of maximal frequency, holds every value of [D] of maximal frequency,
    and is strictly ascending (so without repetition); on empty data it
    raises.  The modes of 1, 1, 2, 2, 3, 3, 4 are 1, 2, 3. *)
Theorem mode_most_frequent_ascending :
  (forall (s : state) (D : list Z),
     consistent s -> data_of s = D ->
     (D <> [] ->
      exists r ms,
        outcome mode s = Ok r /\ hp (run mode s) !! r = Some ms /\
        ms <> [] /\
        (forall v, In v ms -> In v D /\ forall w, (occ D w <= occ D v)%nat) /\
        (forall v, In v D -> (forall w, (occ D w <= occ D v)%nat) -> In v ms) /\
        StronglySorted Z.lt ms /\ List.NoDup ms) /\
     (D = [] -> exists msg, outcome mode s = Raise (PyExn ValueError msg))) /\
  (let s0 := init (Some 0%nat) [[1; 1; 2; 2; 3; 3; 4]] in
   exists r, outcome mode s0 = Ok r /\ hp (run mode s0) !! r = Some [1; 2; 3]).
Proof.
  split; [|exists 1%nat; split; reflexivity].
  intros s D Hc HD. destruct (mode_spec s Hc) as (Hc' & _ & Hv).
  rewrite fresh_mode_eq, HD in Hv. split.
  - intros Hne. destruct D as [|x D]; [congruence|].
    destruct (outcome mode s) as [r|e] eqn:Er; [|discriminate].
    exists r, (mode_of (x :: D)). split; [reflexivity|].
    assert (hp (run mode s) !! r = Some (mode_of (x :: D))) as Hr.
    { apply consistent_iff in Hc'. destruct Hc' as (_ & _ & _ & _ & Hmo).
      assert (c_mode (_cache (self (run mode s))) = Some r) as Hcache.
      { revert Er. unfold outcome, run. rewrite mode_eq.
        destruct (c_mode (_cache (self s))) as [r'|] eqn:Ec; simpl.
        - intros E. inversion E; subst. exact Ec.
        - destruct (data_of s); [discriminate|]. simpl.
          intros E. inversion E; subst. reflexivity. }
      destruct (Hmo r Hcache) as [_ Hl].
      destruct (mode_spec s Hc) as (_ & Hd & _). rewrite Hd, HD in Hl. exact Hl. }
    split; [exact Hr|].
    split; [apply mode_of_nonempty; discriminate|].
    split; [|split; [|split]].
    + intros v Hv'. apply mode_of_In in Hv'. destruct Hv' as [Hin Hmax].
      split; [exact Hin|]. intros w. rewrite Hmax. apply max_freq_bound.
    + intros v Hin Hmax. apply mode_of_In. split; [exact Hin|].
      apply Nat.le_antisymm; [apply max_freq_bound|].
      destruct (max_freq_attained (x :: D) ltac:(discriminate)) as [u Hu].
      destruct (Counter_counts (x :: D)) as (_ & Hk & _).
      destruct (Hk _ _ Hu) as [-> _]. apply Hmax.
    + apply mode_of_strict.
    + apply strict_nodup, mode_of_strict.
  - intros ->. destruct (outcome mode s) as [r|e]; [discriminate|].
    inversion Hv; subst. eexists. reflexivity.
Qed.

Lemma mode_most_frequent_ascending_witness :
  exists r ms,
    outcome mode (init (Some 0%nat) [[4; 9; 4; 9; 7]]) = Ok r /\
    hp (run mode (init (Some 0%nat) [[4; 9; 4; 9; 7]])) !! r = Some ms /\
    ms <> [] /\ StronglySorted Z.lt ms.
Proof.
  destruct mode_most_frequent_ascending as [H _].
  destruct (H (init (Some 0%nat) [[4; 9; 4; 9; 7]]) [4; 9; 4; 9; 7]) as [Hne _].
  - new_calculator.
  - reflexivity.
  - destruct (Hne ltac:(discriminate)) as (r & ms & H1 & H2 & H3 & _ & _ & H4 & _).
    exists r, ms. auto.
Defined.

End ModeClaim.

(** ** Standard deviation *)

Section StandardDeviation.














End StandardDeviation.

(** ** Failures of the readers *)

Section Failures.

(** C10.  The branch of [standard_deviation] guarded by
    [population and n == 0] is never taken: empty data is rejected with
    the empty-data error before the guard is evaluated, the guard is
    false whenever it is evaluated, and whatever the branch would do, the
    method behaves the same. *)
Theorem population_zero_branch_dead :
  (forall population,
     standard_deviation population = standard_deviation_with (ret 0%R) population) /\
  (forall population s,
     data_of s = [] ->
     standard_deviation population s
     = (Raise (PyExn ValueError
                 "Cannot calculate standard deviation: data is empty"), s)) /\
  (forall population s,
     data_of s <> [] ->
     1 <= len (data_of s) /\ population && (len (data_of s) =? 0) = false) /\
  (forall (zero_branch : M R) population s,
     standard_deviation_with zero_branch population s
     = standard_deviation population s).
Proof.
  split; [reflexivity|]. split; [|split].
  - intros population s Hd. rewrite standard_deviation_eq, Hd. reflexivity.
  - intros population s Hd. destruct (data_of s) as [|x d]; [congruence|].
    pose proof (len_pos x d). split; [lia|].
    destruct (Z.eqb_spec (len (x :: d)) 0); [lia|apply andb_false_r].
  - intros zero_branch population s.
    unfold standard_deviation_with, standard_deviation.
    unfold read_data. unfold bind, get_self, load. cbv beta iota.
    change (default [] (hp s !! _data (self s))) with (data_of s).
    destruct (data_of s) as [|x d]; [reflexivity|].
    pose proof (len_pos x d).
    destruct (Z.eqb_spec (len (x :: d)) 0); [lia|].
    rewrite andb_false_r. reflexivity.
Qed.

Lemma population_zero_branch_dead_witness :
  1 <= len (data_of (init (Some 0%nat) [[42]])) /\
  true && (len (data_of (init (Some 0%nat) [[42]])) =? 0) = false.
Proof.
  destruct population_zero_branch_dead as (_ & _ & H & _).
  apply H. discriminate.
Defined.





End Failures.

(** ** The errors that the readers raise *)

Section ErrorKinds.

(** C2, the claim as stated, fails: the error of a reader on empty data
    and the error of the sample standard deviation on a single value are
    not of two distinct kinds.  Both are [ValueError]. *)
Lemma empty_and_insufficient_same_class :
  ~ (forall e1 e2,
       outcome (standard_deviation false) (init None []) = Raise e1 ->
       outcome (standard_deviation false) (init (Some 0%nat) [[42]]) = Raise e2 ->
       exn_type e1 <> exn_type e2).
Proof.
  intros H.
  apply (H (PyExn ValueError "Cannot calculate standard deviation: data is empty")
           (PyExn ValueError
              "Cannot calculate sample standard deviation with less than 2 data points"));
    reflexivity.
Qed.

(** C2, amended.  When the data is empty, [range] and
    [standard_deviation] raise a [ValueError], and so do [mean], [median]
    and [mode] in a consistent calculator; the sample standard deviation
    of a single value raises a [ValueError] too.  There is one exception
    class for both conditions: the two errors differ in their message
    only. *)
Theorem reader_errors_are_ValueError :
  (forall s,
     data_of s = [] ->
     outcome range s = Raise (PyExn ValueError "Cannot calculate range: data is empty") /\
     forall population,
       outcome (standard_deviation population) s
       = Raise (PyExn ValueError "Cannot calculate standard deviation: data is empty")) /\
  (forall s,
     consistent s -> data_of s = [] ->
     outcome mean s = Raise (PyExn ValueError "Cannot calculate mean: data is empty") /\
     outcome median s = Raise (PyExn ValueError "Cannot calculate median: data is empty") /\
     outcome mode s = Raise (PyExn ValueError "Cannot calculate mode: data is empty")) /\
  (forall s,
     len (data_of s) = 1 ->
     outcome (standard_deviation false) s
     = Raise (PyExn ValueError
                "Cannot calculate sample standard deviation with less than 2 data points")) /\
  (forall s1 s2 e1 e2,
     data_of s1 = [] -> len (data_of s2) = 1 ->
     outcome (standard_deviation false) s1 = Raise e1 ->
     outcome (standard_deviation false) s2 = Raise e2 ->
     exn_type e1 = ValueError /\ exn_type e2 = ValueError /\
     exn_msg e1 <> exn_msg e2).
Proof.
  assert (forall s, data_of s = [] -> forall population,
            outcome (standard_deviation population) s
            = Raise (PyExn ValueError
                       "Cannot calculate standard deviation: data is empty")) as Hempty.
  { intros s Hd population. unfold outcome.
    now rewrite standard_deviation_eq, Hd. }
  assert (forall s, len (data_of s) = 1 ->
            outcome (standard_deviation false) s
            = Raise (PyExn ValueError
                "Cannot calculate sample standard deviation with less than 2 data points"))
    as Hone.
  { intros s Hn. unfold outcome. rewrite standard_deviation_eq.
    destruct (data_of s) as [|x d]; [discriminate|].
    cbv zeta. now rewrite Hn. }
  split; [|split; [|split]].
  - intros s Hd. split; [|now apply Hempty].
    unfold outcome. rewrite range_eq by (intros Hne; congruence).
    now rewrite Hd.
  - intros s Hc Hd.
    destruct (mean_spec s Hc) as (_ & _ & Hmean).
    destruct (median_spec s Hc) as (_ & _ & Hmedian).
    destruct (mode_spec s Hc) as (_ & _ & Hmode).
    rewrite fresh_mean_eq, Hd in Hmean.
    rewrite fresh_median_eq, Hd in Hmedian.
    rewrite fresh_mode_eq, Hd in Hmode.
    split; [exact Hmean|]. split; [exact Hmedian|].
    destruct (outcome mode s) as [r|e]; [discriminate|].
    inversion Hmode. reflexivity.
  - exact Hone.
  - intros s1 s2 e1 e2 Hd Hn H1 H2.
    rewrite (Hempty s1 Hd false) in H1. rewrite (Hone s2 Hn) in H2.
    inversion H1; inversion H2; subst. simpl.
    split; [reflexivity|]. split; [reflexivity|discriminate].
Qed.

Lemma reader_errors_are_ValueError_witness :
  outcome mean (init None [])
  = Raise (PyExn ValueError "Cannot calculate mean: data is empty") /\
  outcome (standard_deviation false) (init (Some 0%nat) [[42]])
  = Raise (PyExn ValueError
             "Cannot calculate sample standard deviation with less than 2 data points").
Proof.
  destruct reader_errors_are_ValueError as (_ & Hcached & Hone & _). split.
  - apply Hcached; [|reflexivity].
    apply init_consistent. discriminate.
  - apply Hone. reflexivity.
Defined.

End ErrorKinds.

(** ** [summary] *)

Section SummaryFacts.

Lemma consistent_well_formed (s : state) : consistent s -> well_formed s.
Proof.
  intros Hc. split; [apply Hc|now apply consistent_view_ok].
Qed.

Lemma mean_benign (s : state) : well_formed s -> benign mean s.
Proof.
  intros [Hv Hview]. unfold benign, outcome, run. rewrite mean_eq.
  destruct (c_mean (_cache (self s))) as [q|].
  - split; [discriminate|]. now split.
  - destruct (data_of s) as [|x d] eqn:Ed.
    + split; [intros e H; now inversion H|]. now split.
    + split; [discriminate|]. split; [|exact Ed].
      split; [exact Hv|]. unfold view_ok, with_cache, data_of in *. exact Hview.
Qed.

Lemma median_benign (s : state) : well_formed s -> benign median s.
Proof.
  intros [Hv Hview]. unfold benign, outcome, run. rewrite median_eq by exact Hview.
  destruct (c_median (_cache (self s))) as [q|].
  - split; [discriminate|]. now split.
  - destruct (data_of s) as [|x d] eqn:Ed.
    + split; [intros e H; now inversion H|]. now split.
    + split; [discriminate|]. split; [|exact Ed].
      split; [exact Hv|]. intros _. simpl.
      pose proof (sorted_view_nonempty s Hview) as Hne.
      rewrite Ed in Hne. specialize (Hne ltac:(discriminate)). congruence.
Qed.

Lemma mode_benign (s : state) : well_formed s -> benign mode s.
Proof.
  intros [Hv Hview]. unfold benign, outcome, run. rewrite mode_eq.
  destruct (c_mode (_cache (self s))) as [r|].
  - split; [discriminate|]. now split.
  - destruct (data_of s) as [|x d] eqn:Ed.
    + split; [intros e H; now inversion H|]. now split.
    + split; [discriminate|].
      assert (forall k, data_of (mkState (hp s ++ [mode_of (x :: d)])
                (mkCalc (_data (self s)) (_sorted_data (self s)) k))
              = data_of s) as Hd.
      { intros k. unfold data_of. simpl. now rewrite lookup_snoc_valid. }
      simpl. rewrite Hd. split; [|exact Ed].
      split.
      * unfold valid in *. simpl. rewrite length_app. simpl. lia.
      * unfold view_ok. rewrite Hd. exact Hview.
Qed.

Lemma standard_deviation_benign (population : bool) (s : state) :
  well_formed s -> benign (standard_deviation population) s.
Proof.
  intros Hwf. destruct (mean_benign s Hwf) as (_ & Hwf' & Hd').
  unfold benign, outcome, run. rewrite standard_deviation_eq.
  destruct (data_of s) as [|x d] eqn:Ed.
  - split; [intros e H; now inversion H|]. now split.
  - cbv zeta. destruct (negb population && (len (x :: d) <? 2)).
    + split; [intros e H; now inversion H|]. now split.
    + split; [discriminate|]. simpl. split; [exact Hwf'|exact Hd'].
Qed.

Lemma range_benign (s : state) : well_formed s -> benign range s.
Proof.
  intros [Hv Hview]. unfold benign, outcome, run. rewrite range_eq by exact Hview.
  destruct (data_of s) as [|x d] eqn:Ed.
  - split; [intros e H; now inversion H|]. now split.
  - split; [discriminate|]. split; [|exact Ed].
    split; [exact Hv|]. intros _. simpl.
    pose proof (sorted_view_nonempty s Hview) as Hne.
    rewrite Ed in Hne. specialize (Hne ltac:(discriminate)). congruence.
Qed.

Lemma or_none_bind {A B} (m : M A) (k : option A -> M B) (s : state) :
  (forall e, outcome m s = Raise e -> exn_type e = ValueError) ->
  bind (or_none m) k s = k (opt (outcome m s)) (run m s).
Proof.
  unfold or_none, try_except, bind, ret, outcome, run.
  destruct (m s) as [[v|e] s']; simpl; intros H; [reflexivity|].
  now rewrite (H e eq_refl).
Qed.

Lemma after_range_benign (s : state) :
  well_formed s ->
  benign mean s /\ benign median (after_mean s) /\ benign mode (after_median s) /\
  benign (standard_deviation false) (after_mode s) /\
  benign (standard_deviation true) (after_sample s) /\
  benign range (after_population s).
Proof.
  intros Hwf.
  pose proof (mean_benign s Hwf) as H1.
  pose proof (median_benign _ (proj1 (proj2 H1))) as H2.
  pose proof (mode_benign _ (proj1 (proj2 H2))) as H3.
  pose proof (standard_deviation_benign false _ (proj1 (proj2 H3))) as H4.
  pose proof (standard_deviation_benign true _ (proj1 (proj2 H4))) as H5.
  pose proof (range_benign _ (proj1 (proj2 H5))) as H6.
  auto 10.
Qed.

Lemma after_range_data (s : state) :
  well_formed s ->
  well_formed (after_range s) /\ data_of (after_range s) = data_of s.
Proof.
  intros Hwf.
  destruct (after_range_benign s Hwf)
    as ((_ & _ & E1) & (_ & _ & E2) & (_ & _ & E3) & (_ & _ & E4) &
        (_ & _ & E5) & (_ & W6 & E6)).
  split; [exact W6|].
  unfold after_range, after_population, after_sample, after_mode, after_median,
    after_mean in *. congruence.
Qed.

Lemma summary_eq (s : state) :
  well_formed s ->
  summary s =
  (Ok (mkSummary
         (opt (outcome mean s))
         (opt (outcome median (after_mean s)))
         (opt (outcome mode (after_median s)))
         (opt (outcome (standard_deviation false) (after_mode s)))
         (opt (outcome (standard_deviation true) (after_sample s)))
         (opt (outcome range (after_population s)))
         (len (data_of s))
         (match data_of s with
          | [] => None
          | _ => Some (nth 0 (sorted_view (after_range s)) 0)
          end)
         (match data_of s with
          | [] => None
          | _ => Some (nth (length (sorted_view (after_range s)) - 1)
                           (sorted_view (after_range s)) 0)
          end)),
   match data_of s with
   | [] => after_range s
   | _ => with_sorted (after_range s) (Some (sorted_view (after_range s)))
   end).
Proof.
  intros Hwf.
  destruct (after_range_benign s Hwf)
    as ((V1 & _) & (V2 & _) & (V3 & _) & (V4 & _) & (V5 & _) & (V6 & _)).
  destruct (after_range_data s Hwf) as [[_ Hview] Hd].
  unfold summary.
  rewrite (or_none_bind mean) by exact V1. fold (after_mean s).
  rewrite (or_none_bind median) by exact V2. fold (after_median s).
  rewrite (or_none_bind mode) by exact V3. fold (after_mode s).
  rewrite (or_none_bind (standard_deviation false)) by exact V4.
  fold (after_sample s).
  rewrite (or_none_bind (standard_deviation true)) by exact V5.
  fold (after_population s).
  rewrite (or_none_bind range) by exact V6. fold (after_range s).
  unfold read_data. unfold bind at 1 2. unfold get_self at 1. unfold load at 1.
  unfold bind at 1 2. unfold get_self at 1. unfold load at 1.
  fold (data_of (after_range s)). rewrite Hd.
  pose proof (sorted_view_nonempty _ Hview) as Hne. rewrite Hd in Hne.
  destruct (data_of s) as [|x d] eqn:Ed; [reflexivity|].
  specialize (Hne ltac:(discriminate)).
  unfold bind at 1. rewrite _get_sorted_data_eq.
  set (sv := sorted_view (after_range s)) in *.
  assert (0 < len sv) as Hlen by (destruct sv; [congruence|apply len_pos]).
  unfold_monad.
  rewrite (index_minus_one _ Hne), (index_nth sv 0 ltac:(lia)).
  reflexivity.
Qed.

End SummaryFacts.

Section SummaryClaim.




Lemma consistent_chain (s : state) :
  consistent s ->
  consistent (after_mean s) /\ consistent (after_median s) /\
  consistent (after_mode s) /\ consistent (after_sample s) /\
  consistent (after_population s) /\ consistent (after_range s) /\
  data_of (after_mean s) = data_of s /\ data_of (after_median s) = data_of s /\
  data_of (after_mode s) = data_of s /\ data_of (after_sample s) = data_of s /\
  data_of (after_population s) = data_of s /\ data_of (after_range s) = data_of s.
Proof.
  intros Hc.
  destruct (mean_spec s Hc) as (C1 & D1 & _).
  destruct (median_spec _ C1) as (C2 & D2 & _).
  destruct (mode_spec _ C2) as (C3 & D3 & _).
  destruct (standard_deviation_spec _ C3 false) as (C4 & D4 & _).
  destruct (standard_deviation_spec _ C4 true) as (C5 & D5 & _).
  destruct (range_spec _ C5) as (C6 & D6 & _).
  unfold after_range, after_population, after_sample, after_mode, after_median,
    after_mean in *.
  repeat (split; [assumption|]). repeat split; congruence.
Qed.




End SummaryClaim.

(** ** The life of a calculator *)

Section Lifecycle.

Lemma set_data_eq (r : loc) (s : state) :
  run (set_data r) s = mkState (hp s) (mkCalc r None empty_cache).
Proof. destruct s as [h [l sd k]]. reflexivity. Qed.

Lemma add_value_eq (v : Z) (s : state) :
  run (add_value v) s
  = mkState (<[_data (self s) := data_of s ++ [v]]> (hp s))
            (mkCalc (_data (self s)) None empty_cache).
Proof. destruct s as [h [l sd k]]. reflexivity. Qed.

Lemma add_values_eq (r : loc) (s : state) :
  run (add_values r) s
  = mkState (<[_data (self s) := data_of s ++ default [] (hp s !! r)]> (hp s))
            (mkCalc (_data (self s)) None empty_cache).
Proof. destruct s as [h [l sd k]]. reflexivity. Qed.

Lemma clear_data_eq (s : state) :
  run clear_data s
  = mkState (hp s ++ [[]]) (mkCalc (length (hp s)) None empty_cache).
Proof. destruct s as [h [l sd k]]. reflexivity. Qed.

Lemma mutator_clears (c : call) (s : state) :
  is_mutator c = true -> nothing_cached (exec c s).
Proof.
  destruct c; try discriminate; intros _; simpl;
    rewrite ?set_data_eq, ?add_value_eq, ?add_values_eq, ?clear_data_eq;
    split; reflexivity.
Qed.

Lemma mutator_valid (c : call) (s : state) :
  is_mutator c = true -> valid s -> args_valid c s -> valid (exec c s).
Proof.
  unfold valid.
  destruct c; try discriminate; intros _ Hv Ha; unfold exec, args_valid in *;
    rewrite ?set_data_eq, ?add_value_eq, ?add_values_eq, ?clear_data_eq;
    cbn [hp self _data].
  - exact Ha.
  - now rewrite length_insert.
  - now rewrite length_insert.
  - rewrite length_app. simpl. lia.
Qed.

Lemma mutator_data (s : state) :
  valid s ->
  (forall r, data_of (run (set_data r) s) = default [] (hp s !! r)) /\
  (forall v, data_of (run (add_value v) s) = data_of s ++ [v]) /\
  (forall r, data_of (run (add_values r) s)
             = data_of s ++ default [] (hp s !! r)) /\
  data_of (run clear_data s) = [].
Proof.
  intros Hv. unfold valid in Hv. split; [|split; [|split]].
  - intros r. now rewrite set_data_eq.
  - intros v. rewrite add_value_eq. unfold data_of at 1. simpl.
    now rewrite list_lookup_insert_eq.
  - intros r. rewrite add_values_eq. unfold data_of at 1. simpl.
    now rewrite list_lookup_insert_eq.
  - rewrite clear_data_eq. unfold data_of. simpl. now rewrite lookup_snoc.
Qed.

Lemma invalidated_nothing_cached (s : state) :
  nothing_cached s -> invalidated s = s.
Proof.
  destruct s as [h [l sd k]]. intros [H1 H2]. simpl in *. now subst.
Qed.

Lemma summary_run (s : state) :
  well_formed s -> run summary s = run range (after_range s).
Proof.
  intros Hwf. destruct (after_range_data s Hwf) as [[_ Hview] Hd].
  unfold run. rewrite (summary_eq s Hwf), (range_eq _ Hview), Hd.
  now destruct (data_of s).
Qed.

Lemma exec_consistent (c : call) (s : state) :
  consistent s -> args_valid c s -> consistent (exec c s).
Proof.
  intros Hc Ha. destruct (is_mutator c) eqn:Em.
  - apply nothing_cached_consistent.
    + apply mutator_valid; [exact Em|apply Hc|exact Ha].
    + now apply mutator_clears.
  - destruct c; try discriminate; simpl.
    + destruct s as [h [l sd k]]. exact Hc.
    + now apply mean_spec.
    + now apply median_spec.
    + now apply mode_spec.
    + now apply standard_deviation_spec.
    + now apply range_spec.
    + rewrite summary_run by now apply consistent_well_formed.
      apply range_spec. now apply consistent_chain.
Qed.

Lemma foreign_consistent (s s' : state) :
  consistent s -> foreign_step s s' -> keeps_owned s s' -> consistent s'.
Proof.
  intros Hc [Hself Hlen] [Hdata Hmode].
  apply consistent_iff in Hc. destruct Hc as (Hv & Hs & Hm & Hmd & Hmo).
  assert (data_of s' = data_of s) as Hd
    by (unfold data_of; now rewrite Hself, Hdata).
  apply consistent_iff. rewrite Hd. unfold valid in *. rewrite Hself.
  split; [lia|]. split; [exact Hs|]. split; [exact Hm|]. split; [exact Hmd|].
  intros r Hr. destruct (Hmo r Hr) as [Hne Hl]. split; [exact Hne|].
  now rewrite (Hmode r Hr).
Qed.

Lemma reachable_consistent (s : state) : reachable keeps_owned s -> consistent s.
Proof.
  induction 1 as [h d Hd|s c _ IH Ha|s s' _ IH Hf Hk].
  - now apply init_consistent.
  - now apply exec_consistent.
  - now apply (foreign_consistent s).
Qed.

End Lifecycle.

(** ** Cache consistency *)

Section CacheConsistency.

(** C1, the claim as stated, fails.  The constructor keeps the list it is
    given, and [add_value] appends to that list in place.  Two
    calculators are built on the same list object holding 1; the first
    one memoises its mean, the second one appends 3.  The first
    calculator is then in a reachable state whose memoised mean, 1, is
    not the mean of its data, 2; its [mean()] returns the stale 1. *)
Lemma shared_list_stale_mean :
  let calculator1 := init (Some 0%nat) [[1]] in
  let s1 := run mean calculator1 in
  let calculator2 := init (Some 0%nat) (hp s1) in
  let s2 := run (add_value 3) calculator2 in
  let s := mkState (hp s2) (self s1) in
  reachable unrestricted s /\ data_of s = [1; 3] /\
  outcome mean s = Ok (1 # 1)%Q /\ fresh mean s = Ok (2 # 1)%Q /\
  ~ consistent s.
Proof.
  cbv zeta. split; [|split; [reflexivity|split; [reflexivity|split; [reflexivity|]]]].
  - apply (reach_foreign unrestricted (run mean (init (Some 0%nat) [[1]]))).
    + apply (reach_call unrestricted (init (Some 0%nat) [[1]]) call_mean).
      * apply reach_init. intros r Hr. inversion Hr. simpl. lia.
      * exact I.
    + split; [reflexivity|]. simpl. lia.
    + exact I.
  - intros (_ & _ & Hm & _). specialize (Hm (1 # 1)%Q eq_refl).
    vm_compute in Hm. discriminate.
Qed.

(** C1, amended.  Every state of a calculator reached by construction,
    by calls on the calculator and by steps of other code that do not
    write to the lists the calculator holds is consistent: the sorted
    view, when present, is the ascending arrangement of the data, and
    every memoised statistic is the one computed from the current data.
    Every mutator clears the sorted view and the whole cache and leaves a
    consistent state holding the new data, whatever the state before, so
    the memoising readers called next return the values computed from
    the new data. *)
Theorem cache_consistency :
  (forall s, reachable keeps_owned s -> consistent s) /\
  (forall s S,
     consistent s -> _sorted_data (self s) = Some S ->
     StronglySorted Z.le S /\ Permutation S (data_of s)) /\
  (forall s c,
     valid s -> is_mutator c = true -> args_valid c s ->
     nothing_cached (exec c s) /\ consistent (exec c s) /\
     (forall A (m : M A), outcome m (exec c s) = fresh m (exec c s)) /\
     match outcome mode (exec c s) with
     | Ok r => Ok (default [] (hp (run mode (exec c s)) !! r))
     | Raise e => Raise e
     end = fresh_mode (exec c s)) /\
  (forall s,
     valid s ->
     (forall r, data_of (run (set_data r) s) = default [] (hp s !! r)) /\
     (forall v, data_of (run (add_value v) s) = data_of s ++ [v]) /\
     (forall r, data_of (run (add_values r) s)
                = data_of s ++ default [] (hp s !! r)) /\
     data_of (run clear_data s) = []).
Proof.
  split; [exact reachable_consistent|]. split; [|split; [|exact mutator_data]].
  - intros s S (_ & Hs & _) HS. rewrite (Hs S HS).
    split; [apply sorted_ascending|apply sorted_perm].
  - intros s c Hv Hm Ha.
    assert (consistent (exec c s)) as Hc.
    { apply nothing_cached_consistent.
      - now apply mutator_valid.
      - now apply mutator_clears. }
    split; [now apply mutator_clears|]. split; [exact Hc|].
    split; [|now apply mode_spec].
    intros A m. unfold fresh.
    now rewrite invalidated_nothing_cached by now apply mutator_clears.
Qed.

Lemma cache_consistency_witness :
  let s := exec (call_add_value 4) (exec call_mean (init (Some 0%nat) [[1; 2; 3]])) in
  consistent (exec call_median s) /\ nothing_cached s /\
  data_of s = [1; 2; 3; 4] /\ outcome mean s = fresh mean s.
Proof.
  cbv zeta. destruct cache_consistency as (Hreach & _ & Hmut & Hdata).
  split; [|split; [|split]].
  - apply Hreach. do 3 (apply reach_call; [|exact I]).
    apply reach_init. intros r Hr. inversion Hr. simpl. lia.
  - apply (Hmut (exec call_mean (init (Some 0%nat) [[1; 2; 3]])) (call_add_value 4)).
    + unfold valid. simpl. lia.
    + reflexivity.
    + exact I.
  - reflexivity.
  - apply (Hmut (exec call_mean (init (Some 0%nat) [[1; 2; 3]])) (call_add_value 4)).
    + unfold valid. simpl. lia.
    + reflexivity.
    + exact I.
Defined.

End CacheConsistency.

(** ** The scenarios of the demonstration *)

Section Scenarios.

Example scenario_basic :
  let s := init (Some 0%nat) [[1; 2; 2; 3; 4; 5; 5; 5; 6]] in
  outcome mean s = Ok (11 # 3)%Q /\ outcome median s = Ok (4 # 1)%Q /\
  outcome mode s = Ok 1%nat /\ hp (run mode s) !! 1%nat = Some [5].
Proof. cbv zeta. repeat split; reflexivity. Qed.

Example scenario_single_value :
  let s := exec (call_set_data 1%nat) (init None [[]; [42]]) in
  data_of s = [42] /\
  outcome mean s = Ok (42 # 1)%Q /\ outcome median s = Ok (42 # 1)%Q /\
  hp (run mode s) !! 3%nat = Some [42] /\
  outcome (standard_deviation false) s
  = Raise (PyExn ValueError
             "Cannot calculate sample standard deviation with less than 2 data points") /\
  outcome (standard_deviation true) s = Ok 0%R.
Proof.
  cbv zeta. repeat split; try reflexivity.
  unfold outcome. rewrite standard_deviation_eq.
  cbn [fst data_of]. change (data_of _) with [42].
  cbv beta iota zeta. cbn [negb andb fst].
  replace (variance_of true _ [42]) with (0 # 1)%Q by reflexivity.
  f_equal. replace (Q2R (0 # 1)) with 0%R by (unfold Q2R; simpl; lra).
  apply sqrt_0.
Qed.

Example scenario_growing_data :
  let s0 := init (Some 0%nat) [[1; 2; 3]; [6; 7; 8]] in
  let s1 := exec (call_add_value 5) (exec (call_add_value 4) (exec call_mean s0)) in
  let s2 := exec (call_add_values 1%nat) (exec call_mean s1) in
  outcome mean s0 = Ok (2 # 1)%Q /\ outcome mean s1 = Ok (3 # 1)%Q /\
  data_of s2 = [1; 2; 3; 4; 5; 6; 7; 8] /\ outcome mean s2 = Ok (9 # 2)%Q.
Proof. cbv zeta. repeat split; reflexivity. Qed.

End Scenarios.

(** ** What the readers leave alone *)

Section ReaderFrames.

Lemma median_hit (s : state) (q : Q) :
  c_median (_cache (self s)) = Some q -> median s = (Ok q, s).
Proof.
  destruct s as [h [l sd [cm cmd cmo]]]. simpl. intros ->.
  unfold median. unfold_monad. reflexivity.
Qed.

(** With an empty sorted view memoised over non-empty data, [median] and
    [range] either answer from the cache or raise, and change nothing. *)
Lemma median_empty_view (s : state) :
  _sorted_data (self s) = Some [] ->
  run median s = s /\
  (forall v, outcome median s = Ok v -> c_median (_cache (self s)) = Some v).
Proof.
  destruct s as [h [l sv [cm cmd cmo]]]. simpl. intros ->.
  unfold run, outcome, median. unfold_monad.
  destruct cmd as [q|].
  - split; [reflexivity|]. simpl. intros v H. now inversion H.
  - destruct (default [] (h !! l)) as [|x d]; simpl; split; try reflexivity;
      intros v H; discriminate.
Qed.

Lemma range_empty_view (s : state) :
  _sorted_data (self s) = Some [] ->
  run range s = s /\ forall v, outcome range s <> Ok v.
Proof.
  destruct s as [h [l sv k]]. simpl. intros ->.
  unfold run, outcome, range. unfold_monad.
  destruct (default [] (h !! l)) as [|x d]; simpl; split; try reflexivity;
    intros v H; discriminate.
Qed.

Lemma view_ok_dec (s : state) : view_ok s \/ _sorted_data (self s) = Some [].
Proof.
  destruct (_sorted_data (self s)) as [[|y sd]|] eqn:E.
  - now right.
  - left. intros _. rewrite E. discriminate.
  - left. intros _. rewrite E. discriminate.
Qed.

Lemma median_frame (s : state) :
  hp (run median s) = hp s /\ _data (self (run median s)) = _data (self s) /\
  c_mean (_cache (self (run median s))) = c_mean (_cache (self s)) /\
  c_mode (_cache (self (run median s))) = c_mode (_cache (self s)).
Proof.
  destruct (view_ok_dec s) as [Hv|He].
  - unfold run. rewrite median_eq by exact Hv.
    destruct (c_median (_cache (self s))); [now repeat split|].
    destruct (data_of s); now repeat split.
  - destruct (median_empty_view s He) as [-> _]. now repeat split.
Qed.

Lemma range_frame (s : state) :
  hp (run range s) = hp s /\ _data (self (run range s)) = _data (self s) /\
  _cache (self (run range s)) = _cache (self s).
Proof.
  destruct (view_ok_dec s) as [Hv|He].
  - unfold run. rewrite range_eq by exact Hv.
    destruct (data_of s); now repeat split.
  - destruct (range_empty_view s He) as [-> _]. now repeat split.
Qed.

Lemma mean_frame (s : state) :
  hp (run mean s) = hp s /\ _data (self (run mean s)) = _data (self s) /\
  _sorted_data (self (run mean s)) = _sorted_data (self s) /\
  c_median (_cache (self (run mean s))) = c_median (_cache (self s)) /\
  c_mode (_cache (self (run mean s))) = c_mode (_cache (self s)).
Proof.
  unfold run. rewrite mean_eq.
  destruct (c_mean (_cache (self s))); [now repeat split|].
  destruct (data_of s); now repeat split.
Qed.

Lemma mode_frame (s : state) :
  (exists new, hp (run mode s) = hp s ++ new /\ (length new <= 1)%nat) /\
  _data (self (run mode s)) = _data (self s) /\
  _sorted_data (self (run mode s)) = _sorted_data (self s) /\
  c_mean (_cache (self (run mode s))) = c_mean (_cache (self s)) /\
  c_median (_cache (self (run mode s))) = c_median (_cache (self s)).
Proof.
  unfold run. rewrite mode_eq.
  destruct (c_mode (_cache (self s))).
  - split; [exists []; rewrite app_nil_r; split; [reflexivity|simpl; lia]|now repeat split].
  - destruct (data_of s).
    + split; [exists []; rewrite app_nil_r; split; [reflexivity|simpl; lia]|now repeat split].
    + simpl. split; [eexists; split; [reflexivity|simpl; lia]|now repeat split].
Qed.

Lemma standard_deviation_run (population : bool) (s : state) :
  run (standard_deviation population) s = s \/
  run (standard_deviation population) s = run mean s.
Proof.
  unfold run at 1 2. rewrite standard_deviation_eq.
  destruct (data_of s) as [|x d]; [now left|]. cbv zeta.
  destruct (negb population && (len (x :: d) <? 2)); [now left|now right].
Qed.

(** X1.  No reader changes or removes a list object, and none rebinds the
    data of the calculator: after [mean], [median], [standard_deviation]
    and [range] the store is the one before; after [mode] it is the one
    before with at most one new list at its end.  So the data, and the
    order of its elements, are those before the call.  The same holds
    for [summary] in a well-formed state. *)
Theorem readers_never_write :
  (forall s c,
     is_reader c = true ->
     _data (self (exec c s)) = _data (self s) /\
     exists new, hp (exec c s) = hp s ++ new /\ (length new <= 1)%nat /\
       (c <> call_mode -> new = [])) /\
  (forall s c,
     is_reader c = true -> valid s -> data_of (exec c s) = data_of s) /\
  (forall s,
     well_formed s ->
     _data (self (run summary s)) = _data (self s) /\
     data_of (run summary s) = data_of s /\
     exists new, hp (run summary s) = hp s ++ new /\ (length new <= 1)%nat).
Proof.
  assert (forall s c,
     is_reader c = true ->
     _data (self (exec c s)) = _data (self s) /\
     exists new, hp (exec c s) = hp s ++ new /\ (length new <= 1)%nat /\
       (c <> call_mode -> new = [])) as Hreaders.
  { intros s c Hc. destruct c; try discriminate; simpl.
    - destruct (mean_frame s) as (Hh & Hd & _). split; [exact Hd|].
      exists []. rewrite app_nil_r.
      split; [first [assumption|reflexivity]|]. split; [simpl; lia|reflexivity].
    - destruct (median_frame s) as (Hh & Hd & _). split; [exact Hd|].
      exists []. rewrite app_nil_r.
      split; [first [assumption|reflexivity]|]. split; [simpl; lia|reflexivity].
    - destruct (mode_frame s) as ((new & Hh & Hl) & Hd & _). split; [exact Hd|].
      exists new. split; [exact Hh|]. split; [exact Hl|]. congruence.
    - destruct (mean_frame s) as (Hh & Hd & _).
      destruct (standard_deviation_run population s) as [->| ->].
      + split; [reflexivity|]. exists []. rewrite app_nil_r.
      split; [first [assumption|reflexivity]|]. split; [simpl; lia|reflexivity].
      + split; [exact Hd|]. exists []. rewrite app_nil_r.
      split; [first [assumption|reflexivity]|]. split; [simpl; lia|reflexivity].
    - destruct (range_frame s) as (Hh & Hd & _). split; [exact Hd|].
      exists []. rewrite app_nil_r.
      split; [first [assumption|reflexivity]|]. split; [simpl; lia|reflexivity]. }
  split; [exact Hreaders|]. split.
  - intros s c Hc Hv. destruct (Hreaders s c Hc) as (Hd & new & Hh & _).
    unfold data_of. rewrite Hd, Hh. unfold valid in Hv.
    now rewrite lookup_app_l.
  - intros s Hwf. destruct (after_range_data s Hwf) as [Hwf6 Hd6].
    rewrite (summary_run s Hwf).
    destruct (range_frame (after_range s)) as (Hh & Hd & _).
    destruct (mean_frame s) as (Hh1 & Hd1 & _).
    destruct (median_frame (after_mean s)) as (Hh2 & Hd2 & _).
    destruct (mode_frame (after_median s)) as ((new & Hh3 & Hl) & Hd3 & _).
    assert (hp (after_sample s) = hp (after_mode s) /\
            _data (self (after_sample s)) = _data (self (after_mode s))) as [Hh4 Hd4].
    { unfold after_sample.
      destruct (standard_deviation_run false (after_mode s)) as [->| ->];
        [now split|]. destruct (mean_frame (after_mode s)) as (? & ? & _). now split. }
    assert (hp (after_population s) = hp (after_sample s) /\
            _data (self (after_population s)) = _data (self (after_sample s)))
      as [Hh5 Hd5].
    { unfold after_population.
      destruct (standard_deviation_run true (after_sample s)) as [->| ->];
        [now split|]. destruct (mean_frame (after_sample s)) as (? & ? & _). now split. }
    destruct (range_frame (after_population s)) as (Hh6 & Hd6' & _).
    fold (after_range s) in Hh6, Hd6'.
    fold (after_mean s) in Hh1, Hd1. fold (after_median s) in Hh2, Hd2.
    fold (after_mode s) in Hh3, Hd3.
    assert (_data (self (run range (after_range s))) = _data (self s)) as Hdata
      by congruence.
    assert (hp (run range (after_range s)) = hp s ++ new) as Hheap by congruence.
    split; [exact Hdata|]. split.
    + unfold data_of. rewrite Hdata, Hheap. destruct Hwf as [Hv _].
      unfold valid in Hv. now rewrite lookup_app_l.
    + exists new. now split.
Qed.

Lemma readers_never_write_witness :
  data_of (exec call_mode (init (Some 0%nat) [[3; 1; 3]])) = [3; 1; 3].
Proof.
  destruct readers_never_write as (_ & H & _).
  apply (H (init (Some 0%nat) [[3; 1; 3]]) call_mode).
  - reflexivity.
  - unfold valid. simpl. lia.
Defined.

End ReaderFrames.

(** ** Calling a reader twice *)

Section Idempotence.

Lemma mean_again (s s' : state) (v : Q) :
  mean s = (Ok v, s') -> mean s' = (Ok v, s').
Proof.
  rewrite mean_eq. destruct (c_mean (_cache (self s))) as [q|] eqn:Ec.
  - intros H. inversion H; subst. rewrite mean_eq, Ec. reflexivity.
  - destruct (data_of s) as [|x d]; [discriminate|].
    intros H. inversion H; subst. rewrite mean_eq. reflexivity.
Qed.

Lemma median_again (s s' : state) (v : Q) :
  median s = (Ok v, s') -> median s' = (Ok v, s').
Proof.
  intros H. apply median_hit.
  destruct (view_ok_dec s) as [Hv|He].
  - rewrite median_eq in H by exact Hv.
    destruct (c_median (_cache (self s))) as [q|] eqn:Ec.
    + inversion H; subst. exact Ec.
    + destruct (data_of s) as [|x d]; [discriminate|].
      inversion H; subst. reflexivity.
  - destruct (median_empty_view s He) as [Hrun Hout].
    assert (s' = s) as -> by (unfold run in Hrun; now rewrite H in Hrun).
    apply Hout. unfold outcome. now rewrite H.
Qed.

Lemma mode_again (s s' : state) (r : loc) :
  mode s = (Ok r, s') -> mode s' = (Ok r, s').
Proof.
  rewrite mode_eq. destruct (c_mode (_cache (self s))) as [r0|] eqn:Ec.
  - intros H. inversion H; subst. rewrite mode_eq, Ec. reflexivity.
  - destruct (data_of s) as [|x d]; [discriminate|].
    intros H. inversion H; subst. rewrite mode_eq. reflexivity.
Qed.

Lemma range_again (s s' : state) (v : Z) :
  range s = (Ok v, s') -> range s' = (Ok v, s').
Proof.
  intros H. destruct (view_ok_dec s) as [Hv|He].
  - pose proof (sorted_view_nonempty s Hv) as Hne.
    rewrite range_eq in H by exact Hv.
    destruct (data_of s) as [|x d] eqn:Ed; [discriminate|].
    specialize (Hne ltac:(discriminate)).
    inversion H; subst. clear H.
    assert (view_ok (with_sorted s (Some (sorted_view s)))) as Hv'.
    { intros _. simpl. congruence. }
    rewrite range_eq by exact Hv'.
    change (data_of (with_sorted s (Some (sorted_view s)))) with (data_of s).
    rewrite Ed. reflexivity.
  - destruct (range_empty_view s He) as [_ Hout].
    exfalso. apply (Hout v). unfold outcome. now rewrite H.
Qed.

Lemma standard_deviation_again (population : bool) (s s' : state) (v : R) :
  standard_deviation population s = (Ok v, s') ->
  standard_deviation population s' = (Ok v, s').
Proof.
  rewrite standard_deviation_eq.
  destruct (data_of s) as [|x d] eqn:Ed; [discriminate|]. cbv zeta.
  destruct (negb population && (len (x :: d) <? 2)) eqn:Eg; [discriminate|].
  intros H. inversion H; subst. clear H.
  destruct (mean_frame s) as (Hh & Hd & _).
  assert (data_of (run mean s) = x :: d) as Ed'
    by (unfold data_of in *; now rewrite Hh, Hd).
  rewrite standard_deviation_eq, Ed'. cbv zeta. rewrite Eg.
  assert (mean (run mean s) = (Ok (mean_view s), run mean s)) as Hm.
  { apply mean_again with (s := s). unfold run, mean_view. rewrite mean_eq.
    destruct (c_mean (_cache (self s))); [reflexivity|]. now rewrite Ed. }
  assert (mean_view (run mean s) = mean_view s) as ->.
  { unfold mean_view at 1. pose proof Hm as Hm'. rewrite mean_eq in Hm'.
    destruct (c_mean (_cache (self (run mean s)))) as [q|].
    - now inversion Hm'.
    - rewrite Ed' in Hm' |- *. now inversion Hm'. }
  assert (run mean (run mean s) = run mean s) as ->
    by (unfold run at 1; now rewrite Hm).
  reflexivity.
Qed.

(** X2.  A reader that has returned a value returns the same value when
    it is called again, and the second call changes nothing: the state
    after the first call is a fixed point of the reader.  For [mode] the
    second call returns the very list object of the first. *)
Theorem readers_idempotent (s s' : state) :
  (forall v, mean s = (Ok v, s') -> mean s' = (Ok v, s')) /\
  (forall v, median s = (Ok v, s') -> median s' = (Ok v, s')) /\
  (forall r, mode s = (Ok r, s') -> mode s' = (Ok r, s')) /\
  (forall population v,
     standard_deviation population s = (Ok v, s') ->
     standard_deviation population s' = (Ok v, s')) /\
  (forall v, range s = (Ok v, s') -> range s' = (Ok v, s')).
Proof.
  split; [intros v; apply mean_again|].
  split; [intros v; apply median_again|].
  split; [intros r; apply mode_again|].
  split; [intros p v; apply standard_deviation_again|].
  intros v. apply range_again.
Qed.

Lemma readers_idempotent_witness :
  let s := init (Some 0%nat) [[4; 9; 4]] in
  mode (run mode s) = (Ok 1%nat, run mode s).
Proof.
  cbv zeta.
  destruct (readers_idempotent (init (Some 0%nat) [[4; 9; 4]])
              (run mode (init (Some 0%nat) [[4; 9; 4]]))) as (_ & _ & H & _).
  apply H. reflexivity.
Defined.

End Idempotence.

(** ** The order of the data does not matter *)

Section OrderIndependence.

Lemma occ_perm (d1 d2 : list Z) (v : Z) :
  Permutation d1 d2 -> occ d1 v = occ d2 v.
Proof.
  intros Hp. unfold occ. now apply (Permutation_count_occ Z.eq_dec).
Qed.

Lemma sum_perm (d1 d2 : list Z) :
  Permutation d1 d2 -> fold_right Z.add 0 d1 = fold_right Z.add 0 d2.
Proof.
  induction 1 as [|x l l' _ IH|x y l|l l' l'' _ IH1 _ IH2]; simpl; lia.
Qed.

Lemma sorted_eq_of_perm (d1 d2 : list Z) :
  Permutation d1 d2 -> sorted d1 = sorted d2.
Proof.
  intros Hp. apply sorted_unique; [apply sorted_ascending|].
  rewrite sorted_perm. exact Hp.
Qed.

Lemma strict_ascending_weaken (l : list Z) :
  StronglySorted Z.lt l -> StronglySorted Z.le l.
Proof.
  induction 1 as [|x l Hl IH Hx]; constructor; [exact IH|].
  eapply List.Forall_impl; [|exact Hx]. intros y Hy. simpl in Hy. lia.
Qed.

(** Two strictly ascending lists with the same elements are equal. *)
Lemma strict_ascending_ext (l1 l2 : list Z) :
  StronglySorted Z.lt l1 -> StronglySorted Z.lt l2 ->
  (forall v, In v l1 <-> In v l2) -> l1 = l2.
Proof.
  intros H1 H2 Hin. apply ascending_perm_eq.
  - now apply strict_ascending_weaken.
  - now apply strict_ascending_weaken.
  - apply Stdlib.Sorting.Permutation.NoDup_Permutation;
      [now apply strict_nodup|now apply strict_nodup|exact Hin].
Qed.

(** The maximal frequency is the one number that bounds every frequency
    and is the frequency of some element. *)
Lemma max_freq_of_char (d : list Z) (m : nat) :
  d <> [] ->
  (forall v, (occ d v <= m)%nat) -> (exists u, In u d /\ occ d u = m) ->
  max_freq_of d = m.
Proof.
  intros Hd Hb [u [Hu Hm]]. apply Nat.le_antisymm.
  - destruct (max_freq_attained d Hd) as [w Hw].
    destruct (Counter_counts d) as (_ & Hk & _).
    destruct (Hk _ _ Hw) as [-> _]. apply Hb.
  - rewrite <- Hm. apply max_freq_bound.
Qed.

Lemma max_freq_of_attained (d : list Z) :
  d <> [] -> exists u, In u d /\ occ d u = max_freq_of d.
Proof.
  intros Hd. destruct (max_freq_attained d Hd) as [w Hw].
  destruct (Counter_counts d) as (_ & Hk & _).
  destruct (Hk _ _ Hw) as [E Hpos]. exists w. split; [|now symmetry].
  apply occ_pos_In. lia.
Qed.

Lemma max_freq_of_perm (d1 d2 : list Z) :
  Permutation d1 d2 -> max_freq_of d1 = max_freq_of d2.
Proof.
  intros Hp. destruct d2 as [|y d2].
  - symmetry in Hp. apply Permutation_nil in Hp. now subst.
  - symmetry. apply max_freq_of_char; [discriminate| |].
    + intros v. rewrite <- (occ_perm _ _ v Hp). apply max_freq_bound.
    + assert (d1 <> []) as Hd1.
      { intros ->. apply Permutation_nil in Hp. discriminate. }
      destruct (max_freq_of_attained d1 Hd1) as [u [Hu Hm]].
      exists u. split; [eapply Permutation_in; eassumption|].
      now rewrite <- (occ_perm _ _ u Hp).
Qed.

Lemma mode_of_perm (d1 d2 : list Z) :
  Permutation d1 d2 -> mode_of d1 = mode_of d2.
Proof.
  intros Hp. apply strict_ascending_ext; try apply mode_of_strict.
  intros v. rewrite !mode_of_In, (occ_perm _ _ v Hp), (max_freq_of_perm _ _ Hp).
  split; intros [Hin Ho]; (split; [|exact Ho]).
  - eapply Permutation_in; eassumption.
  - eapply Permutation_in; [symmetry|]; eassumption.
Qed.

Lemma returned_modes_consistent (s : state) :
  consistent s ->
  returned_modes s =
  match data_of s with
  | [] => Raise (PyExn ValueError "Cannot calculate mode: data is empty")
  | d => Ok (mode_of d)
  end.
Proof.
  intros Hc. destruct (mode_spec s Hc) as (_ & _ & H).
  rewrite fresh_mode_eq in H. rewrite <- H.
  unfold returned_modes, outcome, run. now destruct (mode s) as [[r|e] s'].
Qed.

(** X3.  The order in which the data is held does not matter to [mean],
    [median], [range] and [mode]: two consistent calculators whose data
    are rearrangements of each other return the same mean, the same
    median, the same range and the same list of modes (or the same
    error). *)
Theorem statistics_order_independent (s1 s2 : state) :
  consistent s1 -> consistent s2 ->
  Permutation (data_of s1) (data_of s2) ->
  outcome mean s1 = outcome mean s2 /\
  outcome median s1 = outcome median s2 /\
  outcome range s1 = outcome range s2 /\
  returned_modes s1 = returned_modes s2.
Proof.
  intros H1 H2 Hp.
  destruct (mean_spec s1 H1) as (_ & _ & ->).
  destruct (mean_spec s2 H2) as (_ & _ & ->).
  destruct (median_spec s1 H1) as (_ & _ & ->).
  destruct (median_spec s2 H2) as (_ & _ & ->).
  destruct (range_spec s1 H1) as (_ & _ & ->).
  destruct (range_spec s2 H2) as (_ & _ & ->).
  rewrite !returned_modes_consistent by assumption.
  rewrite !fresh_mean_eq, !fresh_median_eq.
  destruct (data_of s1) as [|x1 d1] eqn:E1.
  - apply Permutation_nil in Hp. rewrite Hp. now repeat split.
  - destruct (data_of s2) as [|x2 d2] eqn:E2.
    + symmetry in Hp. apply Permutation_nil in Hp. discriminate.
    + unfold mean_of, median_of, len.
      rewrite !py_sum_fold_right, (sum_perm _ _ Hp), (Permutation_length Hp).
      rewrite (sorted_eq_of_perm _ _ Hp), (mode_of_perm _ _ Hp).
      now repeat split.
Qed.

Lemma statistics_order_independent_witness :
  outcome median (init (Some 0%nat) [[7; 1; 5]; [5; 7; 1]])
  = outcome median (init (Some 1%nat) [[7; 1; 5]; [5; 7; 1]]).
Proof.
  apply (statistics_order_independent
           (init (Some 0%nat) [[7; 1; 5]; [5; 7; 1]])
           (init (Some 1%nat) [[7; 1; 5]; [5; 7; 1]])).
  - new_calculator.
  - new_calculator.
  - simpl. apply perm_trans with [7; 5; 1]; [|apply perm_swap].
    apply perm_skip. apply perm_swap.
Defined.

End OrderIndependence.

(** ** More on [range] *)

Section RangeFacts.

Lemma range_of_sorted_char (d : list Z) :
  d <> [] ->
  exists mx mn, In mx d /\ In mn d /\ (forall x, In x d -> mn <= x <= mx) /\
    range_of_sorted (sorted d) = mx - mn.
Proof.
  intros Hne. set (sd := sorted d).
  assert (0 < length sd)%nat as Hpos.
  { unfold sd. rewrite sorted_length. destruct d; [congruence|simpl; lia]. }
  exists (nth (length sd - 1) sd 0), (nth 0 sd 0).
  split; [apply sorted_In, nth_In; fold sd; lia|].
  split; [apply sorted_In, nth_In; fold sd; lia|].
  split; [|reflexivity].
  intros y Hy. apply sorted_In in Hy. split.
  - apply ascending_head_min; [apply sorted_ascending|exact Hy].
  - apply ascending_last_max; [apply sorted_ascending|exact Hy].
Qed.

Lemma range_consistent (s : state) (r : Z) :
  consistent s -> outcome range s = Ok r ->
  data_of s <> [] /\ r = range_of_sorted (sorted (data_of s)).
Proof.
  intros Hc Hr. destruct (range_spec s Hc) as (_ & _ & H). rewrite H in Hr.
  destruct (data_of s); [discriminate|]. split; [discriminate|congruence].
Qed.

(** X4.  In a consistent calculator the range that [range()] returns is
    never negative, and it is 0 exactly when all the elements of the data
    are equal. *)
Theorem range_zero_iff_constant (s : state) (r : Z) :
  consistent s -> outcome range s = Ok r ->
  0 <= r /\
  (r = 0 <-> forall x y, In x (data_of s) -> In y (data_of s) -> x = y).
Proof.
  intros Hc Hr. destruct (range_consistent s r Hc Hr) as [Hne ->].
  destruct (range_of_sorted_char _ Hne) as (mx & mn & Hmx & Hmn & Hb & ->).
  pose proof (Hb mx Hmx). split; [lia|]. split.
  - intros Hz x y Hx Hy. pose proof (Hb x Hx). pose proof (Hb y Hy). lia.
  - intros Hall. rewrite (Hall mx mn Hmx Hmn). lia.
Qed.

Lemma range_zero_iff_constant_witness :
  0 <= 5 /\
  (5 = 0 <->
   forall x y, In x (data_of (init (Some 0%nat) [[4; 4; 9]])) ->
               In y (data_of (init (Some 0%nat) [[4; 4; 9]])) -> x = y).
Proof.
  apply (range_zero_iff_constant (init (Some 0%nat) [[4; 4; 9]]) 5);
    [new_calculator|reflexivity].
Defined.



End RangeFacts.

(** ** Edge cases of [mode] *)

Section ModeEdges.

Lemma occ_nodup (d : list Z) (v : Z) :
  List.NoDup d -> In v d -> occ d v = 1%nat.
Proof.
  intros Hnd Hv. unfold occ.
  apply (proj1 (NoDup_count_occ' Z.eq_dec d)); assumption.
Qed.

Lemma mode_of_nodup (d : list Z) : List.NoDup d -> mode_of d = sorted d.
Proof.
  intros Hnd. destruct d as [|x d]; [reflexivity|].
  assert (max_freq_of (x :: d) = 1%nat) as Hmax.
  { apply max_freq_of_char; [discriminate| |].
    - intros v. destruct (in_dec Z.eq_dec v (x :: d)) as [Hv|Hv].
      + now rewrite occ_nodup.
      + unfold occ. rewrite (proj1 (count_occ_not_In Z.eq_dec _ _) Hv). lia.
    - exists x. split; [now left|]. apply occ_nodup; [exact Hnd|now left]. }
  apply strict_ascending_ext.
  - apply mode_of_strict.
  - apply ascending_nodup_strict; [apply sorted_ascending|].
    eapply Permutation_NoDup; [symmetry; apply sorted_perm|exact Hnd].
  - intros v. rewrite mode_of_In, sorted_In, Hmax. split; [tauto|].
    intros Hv. split; [exact Hv|now apply occ_nodup].
Qed.

Lemma mode_of_constant (c : Z) (d : list Z) :
  (forall x, In x (c :: d) -> x = c) -> mode_of (c :: d) = [c].
Proof.
  intros Hall. apply strict_ascending_ext.
  - apply mode_of_strict.
  - repeat constructor.
  - intros v. split.
    + intros Hv. apply mode_of_In in Hv. left. symmetry. now apply Hall.
    + intros [<-|[]].
      destruct (mode_of (c :: d)) as [|y l] eqn:E.
      * exfalso. apply (mode_of_nonempty (c :: d)); [discriminate|exact E].
      * assert (In y (mode_of (c :: d))) as Hy by (rewrite E; now left).
        apply mode_of_In in Hy. left. now apply Hall.
Qed.

(** X6.  In a consistent calculator: when no value occurs twice in the
    data, [mode()] returns all of the data in ascending order; when all
    the elements of the data are equal, in particular for a single
    element, it returns that one value. *)
Theorem mode_edge_cases (s : state) :
  consistent s -> data_of s <> [] ->
  (List.NoDup (data_of s) -> returned_modes s = Ok (sorted (data_of s))) /\
  (forall c, (forall x, In x (data_of s) -> x = c) -> returned_modes s = Ok [c]).
Proof.
  intros Hc Hne. rewrite (returned_modes_consistent s Hc).
  destruct (data_of s) as [|x d]; [congruence|]. split.
  - intros Hnd. now rewrite mode_of_nodup.
  - intros c Hall. assert (x = c) as -> by (apply Hall; now left).
    now rewrite mode_of_constant.
Qed.

Lemma mode_edge_cases_witness :
  returned_modes (init (Some 0%nat) [[42]]) = Ok [42].
Proof.
  apply (mode_edge_cases (init (Some 0%nat) [[42]])).
  - new_calculator.
  - discriminate.
  - simpl. intros x [<-|[]]. reflexivity.
Defined.

End ModeEdges.

(** ** The mutators and the list objects *)

Section MutatorAliasing.

Lemma add_each_eq (vs : list Z) (s : state) :
  valid s -> vs <> [] ->
  add_each vs s
  = mkState (<[_data (self s) := data_of s ++ vs]> (hp s))
            (mkCalc (_data (self s)) None empty_cache).
Proof.
  revert s. induction vs as [|v vs IH]; intros s Hv Hne; [congruence|].
  unfold add_each. simpl. fold (add_each vs (run (add_value v) s)).
  destruct vs as [|w vs].
  - simpl. apply add_value_eq.
  - assert (valid (run (add_value v) s)) as Hv1.
    { apply (mutator_valid (call_add_value v)); [reflexivity|exact Hv|exact I]. }
    rewrite IH by (exact Hv1 || discriminate).
    destruct (mutator_data s Hv) as (_ & Hd & _). rewrite Hd.
    rewrite add_value_eq. cbn [hp self _data].
    rewrite list_insert_insert_eq, <- app_assoc. reflexivity.
Qed.

(** X7.  [add_values(values)] does what calling [add_value] for each
    element of [values] does: the data afterwards is the same, and, as
    soon as [values] has an element, so is the whole state.  (With an
    empty [values] the only difference is that [add_values] still clears
    the caches.) *)
Theorem add_values_is_repeated_add_value (s : state) (values : loc) :
  valid s ->
  data_of (run (add_values values) s)
  = data_of (add_each (default [] (hp s !! values)) s) /\
  (default [] (hp s !! values) <> [] ->
   run (add_values values) s = add_each (default [] (hp s !! values)) s) /\
  (default [] (hp s !! values) = [] ->
   data_of (run (add_values values) s) = data_of s /\
   nothing_cached (run (add_values values) s)).
Proof.
  intros Hv. destruct (mutator_data s Hv) as (_ & _ & Hd & _).
  destruct (default [] (hp s !! values)) as [|v vs] eqn:E.
  - split; [|split; [congruence|]].
    + rewrite Hd, E, app_nil_r. reflexivity.
    + intros _. split; [now rewrite Hd, E, app_nil_r|].
      apply (mutator_clears (call_add_values values)). reflexivity.
  - assert (run (add_values values) s = add_each (v :: vs) s) as Heq.
    { rewrite add_each_eq by (exact Hv || discriminate).
      now rewrite add_values_eq, E. }
    split; [now rewrite Heq|]. split; [intros _; exact Heq|discriminate].
Qed.

Lemma add_values_is_repeated_add_value_witness :
  run (add_values 1%nat) (init (Some 0%nat) [[1; 2; 3]; [6; 7; 8]])
  = add_each [6; 7; 8] (init (Some 0%nat) [[1; 2; 3]; [6; 7; 8]]).
Proof.
  destruct (add_values_is_repeated_add_value
              (init (Some 0%nat) [[1; 2; 3]; [6; 7; 8]]) 1%nat) as (_ & H & _).
  - unfold valid. simpl. lia.
  - apply H. discriminate.
Defined.

(** X8.  [add_value] and [add_values] write into the list object the
    calculator was given: afterwards that object holds the old elements
    followed by the new ones, no list object has been created, every
    other list object is as before, and any other calculator holding the
    same list sees the new data while its own caches stay as they were.
    Extending a calculator by its own data list doubles the data. *)
Theorem add_value_writes_in_place (s : state) :
  valid s ->
  (forall v,
     let s' := run (add_value v) s in
     _data (self s') = _data (self s) /\ length (hp s') = length (hp s) /\
     hp s' !! _data (self s) = Some (data_of s ++ [v]) /\
     (forall r, r <> _data (self s) -> hp s' !! r = hp s !! r) /\
     (forall other, _data other = _data (self s) ->
        data_of (seen_by other s') = data_of s ++ [v] /\
        self (seen_by other s') = other)) /\
  (forall values,
     let s' := run (add_values values) s in
     _data (self s') = _data (self s) /\ length (hp s') = length (hp s) /\
     hp s' !! _data (self s) = Some (data_of s ++ default [] (hp s !! values)) /\
     (forall r, r <> _data (self s) -> hp s' !! r = hp s !! r)) /\
  data_of (run (add_values (_data (self s))) s) = data_of s ++ data_of s.
Proof.
  intros Hv. unfold valid in Hv. split; [|split].
  - intros v s'. subst s'. rewrite add_value_eq. cbn [hp self _data].
    split; [reflexivity|]. split; [apply length_insert|].
    split; [now apply list_lookup_insert_eq|].
    split; [intros r Hr; apply list_lookup_insert_ne; congruence|].
    intros other Ho. split; [|reflexivity].
    unfold seen_by, data_of. cbn [hp self]. rewrite Ho.
    now rewrite list_lookup_insert_eq.
  - intros values s'. subst s'. rewrite add_values_eq. cbn [hp self _data].
    split; [reflexivity|]. split; [apply length_insert|].
    split; [now apply list_lookup_insert_eq|].
    intros r Hr. apply list_lookup_insert_ne. congruence.
  - destruct (mutator_data s Hv) as (_ & _ & Hd & _). rewrite Hd. reflexivity.
Qed.

Lemma add_value_writes_in_place_witness :
  data_of (run (add_values 0%nat) (init (Some 0%nat) [[1; 2]])) = [1; 2; 1; 2].
Proof.
  destruct (add_value_writes_in_place (init (Some 0%nat) [[1; 2]])) as (_ & _ & H).
  - unfold valid. simpl. lia.
  - exact H.
Defined.

(** X9.  [clear_data] and the [data] setter never change a list object:
    every list of the store keeps its content.  [clear_data] switches the
    calculator to a list object that did not exist before, so the list it
    held keeps its elements, and what is added afterwards is not written
    to that list. *)
Theorem clear_data_detaches (s : state) :
  valid s ->
  (forall r, (r < length (hp s))%nat -> hp (run clear_data s) !! r = hp s !! r) /\
  (length (hp s) <= _data (self (run clear_data s)))%nat /\
  data_of (run clear_data s) = [] /\
  (forall v,
     hp (run (add_value v) (run clear_data s)) !! _data (self s)
     = hp s !! _data (self s) /\
     data_of (run (add_value v) (run clear_data s)) = [v]) /\
  (forall new_data, hp (run (set_data new_data) s) = hp s).
Proof.
  intros Hv. unfold valid in Hv.
  assert (forall r, (r < length (hp s))%nat ->
            hp (run clear_data s) !! r = hp s !! r) as Hkeep.
  { intros r Hr. rewrite clear_data_eq. cbn [hp]. now apply lookup_app_l. }
  assert (valid (run clear_data s)) as Hv'.
  { apply (mutator_valid call_clear_data); [reflexivity|exact Hv|exact I]. }
  destruct (mutator_data s Hv) as (_ & _ & _ & Hd).
  split; [exact Hkeep|]. split; [rewrite clear_data_eq; cbn [self _data]; lia|].
  split; [exact Hd|]. split.
  - intros v. split.
    + rewrite add_value_eq. cbn [hp].
      rewrite list_lookup_insert_ne.
      * now apply Hkeep.
      * rewrite clear_data_eq. cbn [self _data]. lia.
    + destruct (mutator_data _ Hv') as (_ & Hd' & _). now rewrite Hd', Hd.
  - intros new_data. now rewrite set_data_eq.
Qed.

Lemma clear_data_detaches_witness :
  hp (run (add_value 9) (run clear_data (init (Some 0%nat) [[1; 2; 3]]))) !! 0%nat
  = Some [1; 2; 3].
Proof.
  destruct (clear_data_detaches (init (Some 0%nat) [[1; 2; 3]]))
    as (_ & _ & _ & H & _).
  - unfold valid. simpl. lia.
  - apply (H 9).
Defined.

End MutatorAliasing.

(** ** More on [standard_deviation] *)

Section DeviationFacts.




(** X11.  [standard_deviation] does not memoise its own result.  A call
    that returns leaves the state that [mean()] leaves: the mean is
    memoised; the store, the sorted view and the entries for the median
    and the mode are those before the call. *)
Theorem standard_deviation_only_caches_mean
    (population : bool) (s s' : state) (v : R) :
  standard_deviation population s = (Ok v, s') ->
  s' = run mean s /\
  (exists q, c_mean (_cache (self s')) = Some q) /\
  hp s' = hp s /\ _data (self s') = _data (self s) /\
  _sorted_data (self s') = _sorted_data (self s) /\
  c_median (_cache (self s')) = c_median (_cache (self s)) /\
  c_mode (_cache (self s')) = c_mode (_cache (self s)).
Proof.
  rewrite standard_deviation_eq.
  destruct (data_of s) as [|x d] eqn:Ed; [discriminate|]. cbv zeta.
  destruct (negb population && (len (x :: d) <? 2)); [discriminate|].
  intros H. inversion H; subst. clear H.
  split; [reflexivity|]. split; [|apply mean_frame].
  unfold run. rewrite mean_eq.
  destruct (c_mean (_cache (self s))) as [q|] eqn:Ec.
  - exists q. exact Ec.
  - rewrite Ed. eexists. reflexivity.
Qed.

Lemma standard_deviation_only_caches_mean_witness :
  let s := init (Some 0%nat) [[42]] in
  run (standard_deviation true) s = run mean s.
Proof.
  cbv zeta.
  destruct (standard_deviation_only_caches_mean true
              (init (Some 0%nat) [[42]])
              (run (standard_deviation true) (init (Some 0%nat) [[42]]))
              (sqrt (Q2R (variance_of true
                            (mean_view (init (Some 0%nat) [[42]])) [42]))))
    as [H _]; [|exact H].
  rewrite standard_deviation_eq. reflexivity.
Defined.

End DeviationFacts.

(** ** The median splits the data *)

Section MedianSplits.









End MedianSplits.

(** ** More on [summary] *)

Section SummaryStages.

(** The data is the same at every stage of [summary]. *)
Lemma summary_stages_data (s : state) :
  well_formed s ->
  data_of (after_mean s) = data_of s /\ data_of (after_median s) = data_of s /\
  data_of (after_mode s) = data_of s /\ data_of (after_sample s) = data_of s /\
  data_of (after_population s) = data_of s /\ data_of (after_range s) = data_of s /\
  view_ok (after_mean s) /\ view_ok (after_population s).
Proof.
  intros Hwf.
  destruct (after_range_benign s Hwf)
    as ((_ & W1 & E1) & (_ & W2 & E2) & (_ & W3 & E3) & (_ & W4 & E4) &
        (_ & W5 & E5) & (_ & W6 & E6)).
  unfold after_range, after_population, after_sample, after_mode, after_median,
    after_mean in *.
  repeat split; try congruence; [apply W1|apply W5].
Qed.

Lemma Ok_inj {A} (a b : A) : Ok a = Ok b -> a = b.
Proof. intros H. now inversion H. Qed.

Lemma mean_returns (s : state) :
  data_of s <> [] -> exists q, outcome mean s = Ok q.
Proof.
  intros Hne. unfold outcome. rewrite mean_eq.
  destruct (c_mean (_cache (self s))); [eexists; reflexivity|].
  destruct (data_of s); [congruence|eexists; reflexivity].
Qed.

Lemma median_returns (s : state) :
  view_ok s -> data_of s <> [] -> exists q, outcome median s = Ok q.
Proof.
  intros Hv Hne. unfold outcome. rewrite median_eq by exact Hv.
  destruct (c_median (_cache (self s))); [eexists; reflexivity|].
  destruct (data_of s); [congruence|eexists; reflexivity].
Qed.

Lemma mode_returns (s : state) :
  data_of s <> [] -> exists r, outcome mode s = Ok r.
Proof.
  intros Hne. unfold outcome. rewrite mode_eq.
  destruct (c_mode (_cache (self s))); [eexists; reflexivity|].
  destruct (data_of s); [congruence|eexists; reflexivity].
Qed.

Lemma standard_deviation_returns (population : bool) (s : state) :
  data_of s <> [] ->
  (negb population && (len (data_of s) <? 2) = false ->
   exists v, outcome (standard_deviation population) s = Ok v) /\
  (negb population && (len (data_of s) <? 2) = true ->
   exists e, outcome (standard_deviation population) s = Raise e).
Proof.
  intros Hne. unfold outcome. rewrite standard_deviation_eq.
  destruct (data_of s) as [|x d]; [congruence|]. cbv zeta.
  destruct (negb population && (len (x :: d) <? 2)); split;
    try discriminate; intros _; eexists; reflexivity.
Qed.

Lemma range_returns (s : state) :
  view_ok s -> data_of s <> [] ->
  outcome range s = Ok (range_of_sorted (sorted_view s)) /\
  sorted_view (run range s) = sorted_view s.
Proof.
  intros Hv Hne. unfold outcome, run. rewrite range_eq by exact Hv.
  destruct (data_of s); [congruence|]. split; reflexivity.
Qed.

(** X13.  On non-empty data, in a well-formed state, [summary()] fills
    every field except possibly the sample deviation: mean, median, mode,
    population deviation, range, min and max are never null, the sample
    deviation is null exactly when there is a single element, and the
    range field is the max field minus the min field. *)
Theorem summary_fields_on_data (s : state) (sm : Summary) :
  well_formed s -> data_of s <> [] -> outcome summary s = Ok sm ->
  (exists q, sm_mean sm = Some q) /\ (exists q, sm_median sm = Some q) /\
  (exists r, sm_mode sm = Some r) /\
  (exists v, sm_std_dev_population sm = Some v) /\
  (sm_std_dev_sample sm = None <-> len (data_of s) = 1) /\
  exists mn mx,
    sm_min sm = Some mn /\ sm_max sm = Some mx /\ sm_range sm = Some (mx - mn).
Proof.
  intros Hwf Hne Hsm.
  destruct (summary_stages_data s Hwf)
    as (D1 & D2 & D3 & D4 & D5 & D6 & V1 & V5).
  unfold outcome in Hsm. rewrite (summary_eq s Hwf) in Hsm. cbn [fst] in Hsm.
  apply Ok_inj in Hsm. subst sm.
  cbn [sm_mean sm_median sm_mode sm_std_dev_sample sm_std_dev_population
       sm_range sm_min sm_max].
  destruct (mean_returns s Hne) as [q1 ->].
  destruct (median_returns (after_mean s) V1 ltac:(now rewrite D1)) as [q2 ->].
  destruct (mode_returns (after_median s) ltac:(now rewrite D2)) as [r3 ->].
  destruct (standard_deviation_returns true (after_sample s) ltac:(now rewrite D4))
    as [[v5 ->] _]; [reflexivity|].
  destruct (range_returns (after_population s) V5 ltac:(now rewrite D5))
    as [-> Hview].
  fold (after_range s) in Hview.
  split; [eexists; reflexivity|]. split; [eexists; reflexivity|].
  split; [eexists; reflexivity|]. split; [eexists; reflexivity|]. split.
  - destruct (standard_deviation_returns false (after_mode s) ltac:(now rewrite D3))
      as [Hok Hraise]. rewrite D3 in Hok, Hraise. simpl negb in Hok, Hraise.
    rewrite andb_true_l in Hok, Hraise.
    assert (1 <= len (data_of s)) as Hlen.
    { destruct (data_of s) as [|x d]; [congruence|].
      pose proof (len_pos x d). lia. }
    destruct (Z.ltb_spec (len (data_of s)) 2) as [Hlt|Hge].
    + destruct (Hraise eq_refl) as [e ->]. simpl. split; [lia|reflexivity].
    + destruct (Hok eq_refl) as [v ->]. simpl. split; [discriminate|lia].
  - destruct (data_of s) as [|x d]; [congruence|].
    do 2 eexists. split; [reflexivity|]. split; [reflexivity|].
    rewrite Hview. reflexivity.
Qed.

Lemma summary_fields_on_data_witness :
  exists sm, outcome summary (init (Some 0%nat) [[42]]) = Ok sm /\
    (sm_std_dev_sample sm = None <-> len (data_of (init (Some 0%nat) [[42]])) = 1).
Proof.
  assert (well_formed (init (Some 0%nat) [[42]])) as Hwf
    by (apply consistent_well_formed; new_calculator).
  eexists. split.
  - unfold outcome. rewrite (summary_eq _ Hwf). reflexivity.
  - apply (summary_fields_on_data (init (Some 0%nat) [[42]])).
    + exact Hwf.
    + discriminate.
    + unfold outcome. rewrite (summary_eq _ Hwf). reflexivity.
Defined.

End SummaryStages.

(** ** Calling [summary] twice *)

Section SummaryTwice.

Lemma mean_hit_run (s : state) (q : Q) :
  c_mean (_cache (self s)) = Some q -> mean s = (Ok q, s).
Proof. intros H. now rewrite mean_eq, H. Qed.

Lemma mode_hit_run (s : state) (r : loc) :
  c_mode (_cache (self s)) = Some r -> mode s = (Ok r, s).
Proof. intros H. now rewrite mode_eq, H. Qed.

Lemma standard_deviation_hit (population : bool) (s : state) (q : Q) (x : Z) (d : list Z) :
  c_mean (_cache (self s)) = Some q -> data_of s = x :: d ->
  standard_deviation population s = (deviation_from population q (x :: d), s).
Proof.
  intros Hq Hd. rewrite standard_deviation_eq, Hd. cbv zeta.
  unfold deviation_from, mean_view, run. rewrite (mean_hit_run s q Hq), Hq.
  now destruct (negb population && (len (x :: d) <? 2)).
Qed.

Lemma range_hit (s : state) (sv : list Z) (x : Z) (d : list Z) :
  _sorted_data (self s) = Some sv -> sv <> [] -> data_of s = x :: d ->
  range s = (Ok (range_of_sorted sv), s).
Proof.
  intros Hs Hne Hd.
  rewrite range_eq by (intros _; rewrite Hs; congruence).
  rewrite Hd. unfold sorted_view, with_sorted. rewrite Hs.
  destruct s as [h [l sd k]]. simpl in Hs. now subst sd.
Qed.

Lemma mean_warms (s : state) :
  data_of s <> [] ->
  exists q, outcome mean s = Ok q /\ c_mean (_cache (self (run mean s))) = Some q.
Proof.
  intros Hne. unfold outcome, run. rewrite mean_eq.
  destruct (c_mean (_cache (self s))) as [q|] eqn:E; [now exists q|].
  destruct (data_of s); [congruence|]. eexists. split; reflexivity.
Qed.

Lemma median_warms (s : state) :
  view_ok s -> data_of s <> [] ->
  exists q, outcome median s = Ok q /\
    c_median (_cache (self (run median s))) = Some q.
Proof.
  intros Hv Hne. unfold outcome, run. rewrite median_eq by exact Hv.
  destruct (c_median (_cache (self s))) as [q|] eqn:E; [now exists q|].
  destruct (data_of s); [congruence|]. eexists. split; reflexivity.
Qed.

Lemma mode_warms (s : state) :
  data_of s <> [] ->
  exists r, outcome mode s = Ok r /\ c_mode (_cache (self (run mode s))) = Some r.
Proof.
  intros Hne. unfold outcome, run. rewrite mode_eq.
  destruct (c_mode (_cache (self s))) as [r|] eqn:E; [now exists r|].
  destruct (data_of s); [congruence|]. eexists. split; reflexivity.
Qed.

Lemma range_warms (s : state) :
  view_ok s -> data_of s <> [] ->
  run range s = with_sorted s (Some (sorted_view s)) /\ sorted_view s <> [].
Proof.
  intros Hv Hne. split; [|now apply sorted_view_nonempty].
  unfold run. rewrite range_eq by exact Hv.
  destruct (data_of s); [congruence|reflexivity].
Qed.

(** In a warm state every reader answers from what is memoised and
    changes nothing, and so does [summary]. *)
Lemma summary_warm (s : state) (q1 q2 : Q) (r3 : loc) (sv : list Z) (x : Z) (d : list Z) :
  valid s -> data_of s = x :: d ->
  c_mean (_cache (self s)) = Some q1 -> c_median (_cache (self s)) = Some q2 ->
  c_mode (_cache (self s)) = Some r3 ->
  _sorted_data (self s) = Some sv -> sv <> [] ->
  summary s =
  (Ok (mkSummary (Some q1) (Some q2) (Some r3)
         (opt (deviation_from false q1 (x :: d)))
         (opt (deviation_from true q1 (x :: d)))
         (Some (range_of_sorted sv)) (len (x :: d))
         (Some (nth 0 sv 0)) (Some (nth (length sv - 1) sv 0))),
   s).
Proof.
  intros Hv Hd H1 H2 H3 Hs Hne.
  assert (well_formed s) as Hwf.
  { split; [exact Hv|]. intros _. rewrite Hs. congruence. }
  assert (after_mean s = s) as E1
    by (unfold after_mean, run; now rewrite (mean_hit_run s q1 H1)).
  assert (after_median s = s) as E2
    by (unfold after_median, run; now rewrite E1, (median_hit s q2 H2)).
  assert (after_mode s = s) as E3
    by (unfold after_mode, run; now rewrite E2, (mode_hit_run s r3 H3)).
  assert (after_sample s = s) as E4
    by (unfold after_sample, run;
        now rewrite E3, (standard_deviation_hit false s q1 x d H1 Hd)).
  assert (after_population s = s) as E5
    by (unfold after_population, run;
        now rewrite E4, (standard_deviation_hit true s q1 x d H1 Hd)).
  assert (after_range s = s) as E6
    by (unfold after_range, run; now rewrite E5, (range_hit s sv x d Hs Hne Hd)).
  rewrite (summary_eq s Hwf), E1, E2, E3, E4, E5, E6, Hd.
  unfold outcome.
  rewrite (mean_hit_run s q1 H1), (median_hit s q2 H2), (mode_hit_run s r3 H3),
    (standard_deviation_hit false s q1 x d H1 Hd),
    (standard_deviation_hit true s q1 x d H1 Hd), (range_hit s sv x d Hs Hne Hd).
  unfold sorted_view, with_sorted. rewrite Hs. cbn [fst opt].
  destruct s as [h [l sd k]]. simpl in Hs. subst sd. reflexivity.
Qed.

End SummaryTwice.

Section SummaryTwiceMain.

Lemma reader_on_empty (s : state) :
  well_formed s -> data_of s = [] -> after_range s = s.
Proof.
  intros [Hv Hview] Hd.
  assert (run mean s = s) as E1.
  { unfold run. rewrite mean_eq, Hd. now destruct (c_mean (_cache (self s))). }
  assert (run median s = s) as E2.
  { unfold run. rewrite median_eq by exact Hview. rewrite Hd.
    now destruct (c_median (_cache (self s))). }
  assert (run mode s = s) as E3.
  { unfold run. rewrite mode_eq, Hd. now destruct (c_mode (_cache (self s))). }
  assert (forall p, run (standard_deviation p) s = s) as E4.
  { intros p. unfold run. now rewrite standard_deviation_eq, Hd. }
  assert (run range s = s) as E5.
  { unfold run. rewrite range_eq by exact Hview. now rewrite Hd. }
  unfold after_range, after_population, after_sample, after_mode, after_median,
    after_mean. now rewrite E1, E2, E3, !E4, E5.
Qed.

(** The first call of [summary] on data, told in full. *)
Lemma summary_first_call (s : state) (x : Z) (d : list Z) :
  well_formed s -> data_of s = x :: d ->
  exists q1 q2 r3 sv t,
    summary s =
    (Ok (mkSummary (Some q1) (Some q2) (Some r3)
           (opt (deviation_from false q1 (x :: d)))
           (opt (deviation_from true q1 (x :: d)))
           (Some (range_of_sorted sv)) (len (x :: d))
           (Some (nth 0 sv 0)) (Some (nth (length sv - 1) sv 0))),
     t) /\
    valid t /\ data_of t = x :: d /\
    c_mean (_cache (self t)) = Some q1 /\ c_median (_cache (self t)) = Some q2 /\
    c_mode (_cache (self t)) = Some r3 /\
    _sorted_data (self t) = Some sv /\ sv <> [].
Proof.
  intros Hwf Hd.
  destruct (after_range_benign s Hwf)
    as ((_ & W1 & E1) & (_ & W2 & E2) & (_ & W3 & E3) & _).
  fold (after_mean s) in W1, E1. fold (after_median s) in W2, E2.
  fold (after_mode s) in W3, E3.
  assert (data_of (after_mean s) = x :: d) as D1 by congruence.
  assert (data_of (after_median s) = x :: d) as D2 by congruence.
  assert (data_of (after_mode s) = x :: d) as D3 by congruence.
  destruct (mean_warms s ltac:(rewrite Hd; discriminate)) as (q1 & O1 & C1).
  fold (after_mean s) in C1.
  destruct (median_warms (after_mean s) (proj2 W1) ltac:(rewrite D1; discriminate))
    as (q2 & O2 & C2).
  fold (after_median s) in C2.
  destruct (median_frame (after_mean s)) as (_ & _ & Fm2 & _).
  fold (after_median s) in Fm2.
  destruct (mode_warms (after_median s) ltac:(rewrite D2; discriminate))
    as (r3 & O3 & C3).
  fold (after_mode s) in C3.
  destruct (mode_frame (after_median s)) as (_ & _ & _ & Fm3 & Fd3).
  fold (after_mode s) in Fm3, Fd3.
  assert (c_mean (_cache (self (after_mode s))) = Some q1) as M3 by congruence.
  assert (c_median (_cache (self (after_mode s))) = Some q2) as Md3 by congruence.
  pose proof (standard_deviation_hit false _ q1 x d M3 D3) as S4.
  pose proof (standard_deviation_hit true _ q1 x d M3 D3) as S5.
  assert (after_sample s = after_mode s) as E4
    by (unfold after_sample, run; now rewrite S4).
  assert (after_population s = after_mode s) as E5
    by (unfold after_population, run; now rewrite E4, S5).
  destruct (range_warms (after_mode s) (proj2 W3) ltac:(rewrite D3; discriminate))
    as [R6 Hsv].
  destruct (range_returns (after_mode s) (proj2 W3) ltac:(rewrite D3; discriminate))
    as [O6 _].
  assert (after_range s
          = with_sorted (after_mode s) (Some (sorted_view (after_mode s)))) as E6
    by (unfold after_range; now rewrite E5).
  exists q1, q2, r3, (sorted_view (after_mode s)),
    (with_sorted (after_mode s) (Some (sorted_view (after_mode s)))).
  split.
  - assert (outcome (standard_deviation false) (after_mode s)
            = deviation_from false q1 (x :: d)) as O4
      by (unfold outcome; now rewrite S4).
    assert (outcome (standard_deviation true) (after_mode s)
            = deviation_from true q1 (x :: d)) as O5
      by (unfold outcome; now rewrite S5).
    rewrite (summary_eq s Hwf), Hd, O1, O2, O3, E4, E5, E6, O4, O5, O6.
    reflexivity.
  - split; [exact (proj1 W3)|]. split; [exact D3|].
    split; [exact M3|]. split; [exact Md3|]. split; [exact C3|].
    split; [reflexivity|exact Hsv].
Qed.

(** X14.  [summary()] is idempotent: called again right after it has
    returned, it returns the same result and changes nothing.  On
    non-empty data its first call leaves everything memoised (the mean,
    the median, the mode and a sorted view), so that no reader called
    afterwards changes the state. *)
Theorem summary_idempotent (s s' : state) (sm : Summary) :
  well_formed s -> summary s = (Ok sm, s') ->
  summary s' = (Ok sm, s') /\
  (data_of s <> [] ->
   warm s' /\ forall c, is_reader c = true -> exec c s' = s').
Proof.
  intros Hwf Hsm. destruct (data_of s) as [|x d] eqn:Hd.
  - split; [|congruence].
    assert (s' = s) as ->; [|exact Hsm].
    assert (run summary s = s) as Hrun.
    { rewrite (summary_run s Hwf), (reader_on_empty s Hwf Hd).
      destruct Hwf as [_ Hview]. unfold run. rewrite range_eq by exact Hview.
      now rewrite Hd. }
    unfold run in Hrun. now rewrite Hsm in Hrun.
  - destruct (summary_first_call s x d Hwf Hd)
      as (q1 & q2 & r3 & sv & t & Hfirst & Hv & Hdt & C1 & C2 & C3 & Hs & Hne).
    rewrite Hfirst in Hsm.
    assert (t = s') as <- by (now inversion Hsm).
    assert (sm = mkSummary (Some q1) (Some q2) (Some r3)
               (opt (deviation_from false q1 (x :: d)))
               (opt (deviation_from true q1 (x :: d)))
               (Some (range_of_sorted sv)) (len (x :: d))
               (Some (nth 0 sv 0)) (Some (nth (length sv - 1) sv 0))) as ->.
    { symmetry. apply Ok_inj. exact (f_equal fst Hsm). }
    split; [now apply summary_warm|]. intros _. split.
    + split; [now exists q1|]. split; [now exists q2|].
      split; [now exists r3|now exists sv].
    + intros c Hc. destruct c; try discriminate; simpl; unfold run.
      * now rewrite (mean_hit_run t q1 C1).
      * now rewrite (median_hit t q2 C2).
      * now rewrite (mode_hit_run t r3 C3).
      * now rewrite (standard_deviation_hit population t q1 x d C1 Hdt).
      * now rewrite (range_hit t sv x d Hs Hne Hdt).
Qed.

Lemma summary_idempotent_witness :
  let s := init (Some 0%nat) [[3; 1; 2]] in
  summary (run summary s) = (outcome summary s, run summary s).
Proof.
  cbv zeta.
  assert (well_formed (init (Some 0%nat) [[3; 1; 2]])) as Hwf
    by (apply consistent_well_formed; new_calculator).
  assert (exists sm, summary (init (Some 0%nat) [[3; 1; 2]])
                     = (Ok sm, run summary (init (Some 0%nat) [[3; 1; 2]])))
    as [sm Hsm].
  { eexists. unfold run. rewrite (summary_eq _ Hwf). reflexivity. }
  destruct (summary_idempotent _ _ sm Hwf Hsm) as [H _].
  assert (outcome summary (init (Some 0%nat) [[3; 1; 2]]) = Ok sm) as ->
    by (unfold outcome; now rewrite Hsm).
  exact H.
Defined.

End SummaryTwiceMain.

(** ** What [__str__] renders *)

Section RenderingFacts.

Variable format_4f : Q -> string.
Variable format_4f_root : R -> string.
Variable str_float : Q -> string.


End RenderingFacts.


(** ** Construction *)

Section Construction.

(** X16.  A calculator built without data gets a list of its own: the
    lists that were in the store keep their contents, and two calculators
    built that way share nothing, so a value added to the first becomes
    its only element and is not data of the second. *)
Theorem construction_default_is_unshared (h : heap) (v : Z) :
  let s1 := init None h in
  let s2 := init None (hp s1) in
  let s1' := run (add_value v) (seen_by (self s1) s2) in
  (forall r, (r < length h)%nat -> hp s1' !! r = h !! r) /\
  data_of s1 = [] /\ data_of s2 = [] /\
  data_of s1' = [v] /\ data_of (seen_by (self s2) s1') = [].
Proof.
  cbv zeta. unfold init, seen_by. cbn [hp self _data].
  assert ((((h ++ [[]]) ++ [[]]) !! length h) = Some []) as Hl.
  { rewrite lookup_app_l by (rewrite length_app; simpl; lia).
    apply lookup_snoc. }
  rewrite add_value_eq. unfold data_of. cbn [hp self _data].
  rewrite Hl. cbn [default from_option id].
  split; [|split; [|split; [|split]]].
  - intros r Hr. rewrite list_lookup_insert_ne by lia.
    rewrite lookup_app_l by (rewrite length_app; simpl; lia).
    now apply lookup_app_l.
  - now rewrite lookup_snoc.
  - now rewrite lookup_snoc.
  - rewrite list_lookup_insert_eq by (rewrite !length_app; simpl; lia).
    reflexivity.
  - rewrite list_lookup_insert_ne by (rewrite length_app; simpl; lia).
    now rewrite lookup_snoc.
Qed.

Lemma construction_default_is_unshared_witness :
  data_of (run (add_value 7)
             (seen_by (self (init None [[1; 2]]))
                (init None (hp (init None [[1; 2]]))))) = [7].
Proof.
  exact (proj1 (proj2 (proj2 (proj2
    (construction_default_is_unshared [[1; 2]] 7))))).
Defined.

End Construction.

(** ** The mean after [add_value] *)

Section MeanUpdate.





End MeanUpdate.

(** ** When a call raises *)

Section WhenCallsRaise.



End WhenCallsRaise.
